(** * meme-observatory: the configuration module [config-example.py]

    The module binds a handful of path strings derived from the subreddit
    name, creates four directories with [os.makedirs(_, exist_ok=True)] and
    binds two shared constants.  This development embeds

    - the Python [str] operations and the [posixpath] functions the module
      calls ([join]; [split], [exists] and [isdir] through [os.makedirs]),
    - a POSIX directory tree with the [mkdir] and [stat] system calls,
    - [os.makedirs] as CPython's [os.py] defines it,
    - the module body itself, as [resolve],

    and proves the properties of the specification over them.

    The host is a POSIX system, so [os.path] is [posixpath].  Strings are
    byte strings (a Python [str] is taken by its UTF-8 encoding, in which
    ["/"] and NUL are single bytes).  The file system model has
    directories and regular files and a write permission per directory; it
    has no symbolic links, no search permission and no length limits, a
    directory created by [mkdir] is writable, and the interpreter's
    recursion limit is not modelled. *)

From stdpp Require Import gmap strings list pretty.
From Stdlib Require Import Ascii.

Local Open Scope Z_scope.

(** ** Python [str] methods *)

Module PyStr.

(** [bool(s)]: a string is true when it is not empty. *)
Definition truthy (s : string) : bool :=
  match s with "" => false | String _ _ => true end.

(** [s.startswith(prefix)] *)
Definition startswith (s pre : string) : bool := String.prefix pre s.

(** [s.endswith(suffix)] *)
Fixpoint endswith (s suf : string) : bool :=
  if String.eqb s suf then true
  else match s with
       | "" => false
       | String _ s' => endswith s' suf
       end.

(** [s.rfind(c)] for a one-character [c]: the highest index of [c] in [s],
    [-1] when there is none. *)
Fixpoint rfind (s : string) (c : ascii) : Z :=
  match s with
  | "" => -1
  | String a s' =>
      let i := rfind s' c in
      if decide (i = -1) then (if Ascii.eqb a c then 0 else -1) else i + 1
  end.

(** [s[:i]] and [s[i:]] for [0 <= i]. *)
Fixpoint take (i : nat) (s : string) : string :=
  match i, s with
  | S i', String a s' => String a (take i' s')
  | _, _ => ""
  end.

Fixpoint drop (i : nat) (s : string) : string :=
  match i, s with
  | S i', String _ s' => drop i' s'
  | _, _ => s
  end.

(** [c * n] for a one-character [c]. *)
Fixpoint repeat (c : ascii) (n : nat) : string :=
  match n with
  | O => ""
  | S n' => String c (repeat c n')
  end.

(** [s.rstrip(c)] for a one-character [c]. *)
Fixpoint rstrip (s : string) (c : ascii) : string :=
  match s with
  | "" => ""
  | String a s' =>
      match rstrip s' c with
      | "" => if Ascii.eqb a c then "" else String a ""
      | r => String a r
      end
  end.

(** [c in s] for a one-character [c]. *)
Fixpoint contains (s : string) (c : ascii) : bool :=
  match s with
  | "" => false
  | String a s' => Ascii.eqb a c || contains s' c
  end.

(** [str(n)] for an [int]: the decimal digits, with ["-"] before a
    negative number. *)
Definition str (n : Z) : string := pretty n.

(** [s.split(c)]: the pieces of [s] between the occurrences of [c]. *)
Fixpoint split (s : string) (c : ascii) : list string :=
  match s with
  | "" => [""]
  | String a s' =>
      if Ascii.eqb a c then "" :: split s' c
      else match split s' c with
           | piece :: pieces => String a piece :: pieces
           | [] => [String a ""]
           end
  end.

End PyStr.

(** [range(n)] *)
Definition range (n : Z) : list Z := seqZ 0 n.

(** ** [posixpath] *)

Module posixpath.

Definition sep : ascii := "/"%char.
Definition curdir : string := ".".

(** One turn of the loop of [join]:
<<
    if b.startswith(sep):
        path = b
    elif not path or path.endswith(sep):
        path += b
    else:
        path += sep + b
>> *)
Definition join_step (path b : string) : string :=
  if PyStr.startswith b (String sep "") then b
  else if negb (PyStr.truthy path) || PyStr.endswith path (String sep "")
       then path +:+ b
       else path +:+ String sep "" +:+ b.

(** [os.path.join(a, *p)] *)
Definition join (a : string) (p : list string) : string :=
  foldl join_step a p.

(** [os.path.split(p)]:
<<
    i = p.rfind(sep) + 1
    head, tail = p[:i], p[i:]
    if head and head != sep*len(head):
        head = head.rstrip(sep)
    return head, tail
>> *)
Definition split (p : string) : string * string :=
  let i := Z.to_nat (PyStr.rfind p sep + 1) in
  let head := PyStr.take i p in
  let tail := PyStr.drop i p in
  let head :=
    if PyStr.truthy head
       && negb (String.eqb head (PyStr.repeat sep (String.length head)))
    then PyStr.rstrip head sep
    else head in
  (head, tail).

End posixpath.

(** ** The module's path bindings *)

Section Paths.

Variable subreddit : string.

Definition working_dir : string := "reddit_data/" +:+ subreddit +:+ "/".
Definition media_dir : string := posixpath.join working_dir ["media"].
Definition mosaic_dir : string := posixpath.join working_dir ["mosaics"].
Definition output_dir : string := "ouput/".
Definition image_lookup_file : string :=
  posixpath.join working_dir ["media.json.gz"].

Definition logits_file : string :=
  posixpath.join working_dir ["image_features.csv.gz"].
Definition knn_file : string := posixpath.join working_dir ["knn.pkl"].
Definition file_animation : string :=
  posixpath.join output_dir ["/doppler_mosaic.mp4"].

End Paths.

(** ** The shared variables *)

Definition skip_hash : list string := ["NOHASH"; "0000000000000000"; "nan"].
Definition n_dimensions : Z := 2048.
Definition cols_conv_feats (n_dimensions : Z) : list string :=
  (λ n, "conv_" +:+ PyStr.str n) <$> range n_dimensions.

(** ** A POSIX directory tree *)

Inductive inode : Type :=
  | File
  | Dir (writable : bool).

Global Instance inode_eq_dec : EqDecision inode.
Proof. solve_decision. Defined.

(** A node is named by its location: the path from the root, innermost
    name first; the root is [[]]. *)
Record filesystem : Type := Filesystem {
  nodes : gmap (list string) inode;
  cwd : list string
}.

Inductive exception : Type :=
  | PermissionError
  | FileExistsError
  | FileNotFoundError
  | NotADirectoryError
  | ValueError
  | RecursionError.

Global Instance exception_eq_dec : EqDecision exception.
Proof. solve_decision. Defined.

(** [isinstance(e, OSError)] *)
Definition is_OSError (e : exception) : bool :=
  match e with
  | PermissionError | FileExistsError | FileNotFoundError
  | NotADirectoryError => true
  | ValueError | RecursionError => false
  end.

(** *** Path resolution *)

Module kernel.

Definition is_dir (i : option inode) : bool :=
  match i with Some (Dir _) => true | _ => false end.

(** Following one component from a directory. *)
Definition step (cur : list string) (c : string) : list string :=
  if decide (c = "" ∨ c = ".") then cur
  else if decide (c = "..") then tail cur
  else c :: cur.

(** Following the components [cs] from [cur]; every component is looked
    up in a directory that exists. *)
Fixpoint walk (ns : gmap (list string) inode) (cur : list string)
    (cs : list string) : exception + list string :=
  match cs with
  | [] => inr cur
  | c :: cs' =>
      match ns !! cur with
      | None => inl FileNotFoundError
      | Some File => inl NotADirectoryError
      | Some (Dir _) => walk ns (step cur c) cs'
      end
  end.

(** An absolute path starts at the root, any other at the working
    directory. *)
Definition start (fs : filesystem) (p : string) : list string :=
  if PyStr.startswith p "/" then [] else cwd fs.

Definition components (p : string) : list string :=
  PyStr.split p posixpath.sep.

(** [stat(2)] *)
Definition stat (p : string) (fs : filesystem) : exception + inode :=
  if PyStr.truthy p then
    match walk (nodes fs) (start fs p) (components p) with
    | inl e => inl e
    | inr loc =>
        match nodes fs !! loc with
        | None => inl FileNotFoundError
        | Some i => inr i
        end
    end
  else inl FileNotFoundError.

(** The components of a path without its trailing slashes. *)
Fixpoint strip_trailing (cs : list string) : list string :=
  match cs with
  | [] => []
  | c :: cs' =>
      match strip_trailing cs' with
      | [] => if PyStr.truthy c then [c] else []
      | r => c :: r
      end
  end.

(** Creating the entry [name] in the directory [parent]. *)
Definition create (ns : gmap (list string) inode) (parent : list string)
    (name : string) : exception + gmap (list string) inode :=
  match ns !! parent with
  | None => inl FileNotFoundError
  | Some File => inl NotADirectoryError
  | Some (Dir w) =>
      if decide (name = "." ∨ name = "..") then inl FileExistsError
      else if decide (is_Some (ns !! (name :: parent)))
           then inl FileExistsError
      else if w then inr (<[name :: parent := Dir true]> ns)
      else inl PermissionError
  end.

(** [mkdir(2)] *)
Definition mkdir (p : string) (fs : filesystem)
    : exception + filesystem :=
  if PyStr.truthy p then
    match reverse (strip_trailing (components p)) with
    | [] => inl FileExistsError
    | name :: parents =>
        match walk (nodes fs) (start fs p) (reverse parents) with
        | inl e => inl e
        | inr parent =>
            match create (nodes fs) parent name with
            | inl e => inl e
            | inr ns => inr (Filesystem ns (cwd fs))
            end
        end
    end
  else inl FileNotFoundError.

End kernel.

(** ** Running code against the file system *)

Inductive outcome (A : Type) : Type :=
  | Returned (a : A) (fs : filesystem)
  | Raised (e : exception) (fs : filesystem).
Global Arguments Returned {A} a fs.
Global Arguments Raised {A} e fs.

(** The file system as an outcome leaves it. *)
Definition final_fs {A : Type} (r : outcome A) : filesystem :=
  match r with
  | Returned _ fs => fs
  | Raised _ fs => fs
  end.

Definition IO (A : Type) : Type := filesystem → outcome A.

Global Instance IO_ret : MRet IO := λ A a fs, Returned a fs.
Global Instance IO_bind : MBind IO := λ A B k m fs,
  match m fs with
  | Returned a fs' => k a fs'
  | Raised e fs' => Raised e fs'
  end.

Definition raise {A : Type} (e : exception) : IO A := λ fs, Raised e fs.

(** A call that reads the file system and does not change it. *)
Definition reads {A : Type} (f : filesystem → A) : IO A :=
  λ fs, Returned (f fs) fs.

(** [try: body  except <caught>: handler] *)
Definition try_except {A : Type} (body : IO A) (caught : exception → bool)
    (handler : exception → IO A) : IO A := λ fs,
  match body fs with
  | Returned a fs' => Returned a fs'
  | Raised e fs' => if caught e then handler e fs' else Raised e fs'
  end.

(** [for x in xs: body] *)
Fixpoint for_each {A : Type} (xs : list A) (body : A → IO unit) : IO unit :=
  match xs with
  | [] => mret ()
  | x :: xs' => body x;; for_each xs' body
  end.

Definition NUL : ascii := "000"%char.

(** ** [genericpath]: [exists] and [isdir] *)

Module genericpath.

(** [os.stat(path)] returning to [genericpath]: a path with an embedded
    NUL raises [ValueError] before any system call. *)
Definition os_stat (path : string) (fs : filesystem)
    : exception + inode :=
  if PyStr.contains path NUL then inl ValueError
  else kernel.stat path fs.

(** [os.path.exists(path)]: both [OSError] and [ValueError] mean no. *)
Definition exists_ (path : string) (fs : filesystem) : bool :=
  match os_stat path fs with
  | inl _ => false
  | inr _ => true
  end.

(** [os.path.isdir(s)] *)
Definition isdir (s : string) (fs : filesystem) : bool :=
  match os_stat s fs with
  | inl _ => false
  | inr i => kernel.is_dir (Some i)
  end.

End genericpath.

(** ** [os] *)

Module os.

(** [os.mkdir(path)] *)
Definition mkdir (path : string) : IO unit := λ fs,
  if PyStr.contains path NUL then Raised ValueError fs
  else match kernel.mkdir path fs with
       | inl e => Raised e fs
       | inr fs' => Returned () fs'
       end.

(** The last statement of [makedirs]: [mkdir], forgiving an [OSError]
    when [exist_ok] holds and the directory is there. *)
Definition makedirs_leaf (name : string) (exist_ok : bool) : IO unit :=
  try_except (mkdir name) is_OSError (λ e,
    isdir ← reads (genericpath.isdir name);
    if negb exist_ok || negb isdir then raise e else mret ()).

(** [os.makedirs(name, exist_ok=exist_ok)], with the depth of the
    recursion bounded by [depth]:
<<
    head, tail = path.split(name)
    if not tail:
        head, tail = path.split(head)
    if head and tail and not path.exists(head):
        try:
            makedirs(head, exist_ok=exist_ok)
        except FileExistsError:
            pass
        cdir = curdir
        if tail == cdir:
            return
    try:
        mkdir(name, mode)
    except OSError:
        if not exist_ok or not path.isdir(name):
            raise
>> *)
Fixpoint makedirs_depth (depth : nat) (name : string) (exist_ok : bool)
    : IO unit :=
  match depth with
  | O => raise RecursionError
  | S depth' =>
      let '(head, tail) := posixpath.split name in
      let '(head, tail) :=
        if negb (PyStr.truthy tail) then posixpath.split head
        else (head, tail) in
      head_exists ← reads (genericpath.exists_ head);
      if PyStr.truthy head && PyStr.truthy tail && negb head_exists then
        try_except (makedirs_depth depth' head exist_ok)
          (λ e, bool_decide (e = FileExistsError)) (λ _, mret ());;
        let cdir := posixpath.curdir in
        if String.eqb tail cdir then mret ()
        else makedirs_leaf name exist_ok
      else makedirs_leaf name exist_ok
  end.

(** Every recursive call is on a strictly shorter name, so this depth is
    never exhausted. *)
Definition makedirs (name : string) (exist_ok : bool) : IO unit :=
  makedirs_depth (S (String.length name)) name exist_ok.

End os.

(** ** The module body *)

Module Config.
Record t : Type := Build {
  subreddit : string;
  working_dir : string;
  media_dir : string;
  mosaic_dir : string;
  output_dir : string;
  image_lookup_file : string;
  logits_file : string;
  knn_file : string;
  file_animation : string;
  skip_hash : list string;
  n_dimensions : Z;
  cols_conv_feats : list string
}.
End Config.

(** The directories the loop visits, in order. *)
Definition directories (subreddit : string) : list string :=
  [working_dir subreddit; media_dir subreddit; output_dir;
   mosaic_dir subreddit].

(** The module's bindings once its body has run, for a given subreddit
    name and number of dimensions. *)
Definition bindings (subreddit : string) (n_dimensions : Z) : Config.t :=
  {|
    Config.subreddit := subreddit;
    Config.working_dir := working_dir subreddit;
    Config.media_dir := media_dir subreddit;
    Config.mosaic_dir := mosaic_dir subreddit;
    Config.output_dir := output_dir;
    Config.image_lookup_file := image_lookup_file subreddit;
    Config.logits_file := logits_file subreddit;
    Config.knn_file := knn_file subreddit;
    Config.file_animation := file_animation;
    Config.skip_hash := skip_hash;
    Config.n_dimensions := n_dimensions;
    Config.cols_conv_feats := cols_conv_feats n_dimensions
  |}.

(** The paths bound to files, which the loop does not visit. *)
Definition files (subreddit : string) : list string :=
  [image_lookup_file subreddit; logits_file subreddit; knn_file subreddit;
   file_animation].

(** Executing the module with [subreddit = identifier] and
    [n_dimensions = dimensions]: the loop over the directories is the only
    statement that touches the file system. *)
Definition resolve (identifier : string) (dimensions : Z) : IO Config.t :=
  for_each (directories identifier) (λ _dir, os.makedirs _dir true);;
  mret (bindings identifier dimensions).

(** ** File systems to run the module on *)

(** An empty, writable working directory [/home/meme]. *)
Definition fresh_fs : filesystem :=
  Filesystem
    (<[ ["meme"; "home"] := Dir true ]>
       (<[ ["home"] := Dir true ]> {[ [] := Dir true ]}))
    ["meme"; "home"].

(** [fresh_fs] after the module has run for the subreddit [dankmemes]. *)
Definition dankmemes_fs : filesystem :=
  Filesystem
    (list_to_map
       [ (["reddit_data"; "meme"; "home"], Dir true);
         (["dankmemes"; "reddit_data"; "meme"; "home"], Dir true);
         (["media"; "dankmemes"; "reddit_data"; "meme"; "home"], Dir true);
         (["mosaics"; "dankmemes"; "reddit_data"; "meme"; "home"], Dir true);
         (["ouput"; "meme"; "home"], Dir true) ]
     ∪ nodes fresh_fs)
    ["meme"; "home"].

(** A working directory in which [ouput] is a regular file. *)
Definition ouput_file_fs : filesystem :=
  Filesystem (<[ ["ouput"; "meme"; "home"] := File ]> (nodes fresh_fs))
    ["meme"; "home"].

(** [ouput_file_fs] after the module has run for [dankmemes] and has
    stopped at [ouput]. *)
Definition ouput_file_after_fs : filesystem :=
  Filesystem
    (list_to_map
       [ (["reddit_data"; "meme"; "home"], Dir true);
         (["dankmemes"; "reddit_data"; "meme"; "home"], Dir true);
         (["media"; "dankmemes"; "reddit_data"; "meme"; "home"], Dir true) ]
     ∪ nodes ouput_file_fs)
    ["meme"; "home"].

(** [fresh_fs] after the module has run for the identifier [a/b]. *)
Definition a_b_fs : filesystem :=
  Filesystem
    (list_to_map
       [ (["reddit_data"; "meme"; "home"], Dir true);
         (["a"; "reddit_data"; "meme"; "home"], Dir true);
         (["b"; "a"; "reddit_data"; "meme"; "home"], Dir true);
         (["media"; "b"; "a"; "reddit_data"; "meme"; "home"], Dir true);
         (["mosaics"; "b"; "a"; "reddit_data"; "meme"; "home"], Dir true);
         (["ouput"; "meme"; "home"], Dir true) ]
     ∪ nodes fresh_fs)
    ["meme"; "home"].


(** [fresh_fs] after [os.makedirs] of [x/../y//./z/]. *)
Definition x_y_z_fs : filesystem :=
  Filesystem
    (list_to_map
       [ (["x"; "meme"; "home"], Dir true);
         (["y"; "meme"; "home"], Dir true);
         (["z"; "y"; "meme"; "home"], Dir true) ]
     ∪ nodes fresh_fs)
    ["meme"; "home"].

(** The tree of [dankmemes_fs] with no directory writable. *)
Definition dankmemes_readonly_fs : filesystem :=
  Filesystem ((λ _, Dir false) <$> nodes dankmemes_fs) ["meme"; "home"].

(** The tree of [dankmemes_fs] with a regular file where [media_dir]
    points. *)
Definition media_file_fs : filesystem :=
  Filesystem
    (<[ ["media"; "dankmemes"; "reddit_data"; "meme"; "home"] := File ]>
       (nodes dankmemes_fs))
    ["meme"; "home"].

(** A working directory that is not writable. *)
Definition readonly_fs : filesystem :=
  Filesystem
    (<[ ["meme"; "home"] := Dir false ]>
       (<[ ["home"] := Dir true ]> {[ [] := Dir true ]}))
    ["meme"; "home"].

(** ** Properties of the file system, as predicates *)

(** Every directory can be written to. *)
Definition all_writable (fs : filesystem) : Prop :=
  ∀ loc w, nodes fs !! loc = Some (Dir w) → w = true.

(** [fs'] has every node of [fs] unchanged, the same working directory,
    and nothing new but directories. *)
Definition only_new_directories (fs fs' : filesystem) : Prop :=
  cwd fs' = cwd fs
  ∧ (∀ loc i, nodes fs !! loc = Some i → nodes fs' !! loc = Some i)
  ∧ (∀ loc i, nodes fs !! loc = None → nodes fs' !! loc = Some i →
       i = Dir true).

(** The node a path names, when the path resolves. *)
Definition locate (p : string) (fs : filesystem) : option (list string) :=
  if PyStr.truthy p && negb (PyStr.contains p NUL) then
    match kernel.walk (nodes fs) (kernel.start fs p) (kernel.components p)
    with
    | inl _ => None
    | inr loc => Some loc
    end
  else None.

(** The node [loc] lies on the path [p]: resolving one or more of the
    leading components of [p] arrives at it. *)
Definition on_path (p : string) (fs : filesystem) (loc : list string)
    : Prop :=
  ∃ cs, cs ≠ []
        ∧ cs `prefix_of` kernel.components p
        ∧ kernel.walk (nodes fs) (kernel.start fs p) cs = inr loc.

(** An identifier that is one ordinary path segment. *)
Definition plain_segment (s : string) : Prop :=
  s ≠ "" ∧ s ≠ "." ∧ s ≠ ".." ∧ PyStr.contains s posixpath.sep = false.

(** * Facts about the string operations *)

Section StringFacts.

Lemma str_app_nil_l (s : string) : "" +:+ s = s.
Proof. reflexivity. Qed.

Lemma str_app_cons (a : ascii) (s t : string) :
  String a s +:+ t = String a (s +:+ t).
Proof. reflexivity. Qed.

Lemma str_app_nil_r (s : string) : s +:+ "" = s.
Proof. induction s as [|a s IH]; [done|]. by rewrite str_app_cons, IH. Qed.

Lemma str_app_assoc (s t u : string) : (s +:+ t) +:+ u = s +:+ t +:+ u.
Proof.
  induction s as [|a s IH]; [done|]. by rewrite !str_app_cons, IH.
Qed.

Lemma str_app_length (s t : string) :
  String.length (s +:+ t) = (String.length s + String.length t)%nat.
Proof.
  induction s as [|a s IH]; [done|]. rewrite str_app_cons. simpl. by rewrite IH.
Qed.

Lemma endswith_eq (s suf : string) :
  PyStr.endswith s suf =
    if String.eqb s suf then true
    else match s with
         | "" => false
         | String _ s' => PyStr.endswith s' suf
         end.
Proof. by destruct s. Qed.

Lemma endswith_refl (s : string) : PyStr.endswith s s = true.
Proof. by rewrite endswith_eq, String.eqb_refl. Qed.

Lemma endswith_app (s suf : string) : PyStr.endswith (s +:+ suf) suf = true.
Proof.
  induction s as [|a s IH]; [apply endswith_refl|].
  rewrite str_app_cons, endswith_eq, IH. by case_match.
Qed.

Lemma startswith_app (pre s : string) :
  PyStr.startswith (pre +:+ s) pre = true.
Proof.
  unfold PyStr.startswith.
  induction pre as [|a pre IH]; [by destruct s|].
  rewrite str_app_cons. simpl. by destruct (ascii_dec a a).
Qed.

Lemma contains_app (s t : string) (c : ascii) :
  PyStr.contains (s +:+ t) c = PyStr.contains s c || PyStr.contains t c.
Proof.
  induction s as [|a s IH]; [done|].
  rewrite str_app_cons. simpl. rewrite IH. by rewrite orb_assoc.
Qed.

Lemma str_take_drop (i : nat) (s : string) : PyStr.take i s +:+ PyStr.drop i s = s.
Proof.
  revert s; induction i as [|i IH]; intros [|a s]; simpl; try done.
  by rewrite str_app_cons, IH.
Qed.

End StringFacts.

(** * Facts about the bindings *)

Section BindingFacts.

Lemma join_absolute (a b : string) :
  PyStr.startswith b "/" = true → posixpath.join a [b] = b.
Proof.
  intros Hb. unfold posixpath.join, posixpath.join_step; simpl.
  unfold posixpath.sep. by rewrite Hb.
Qed.

Lemma join_after_sep (a b : string) :
  PyStr.startswith b "/" = false →
  posixpath.join (a +:+ "/") [b] = a +:+ "/" +:+ b.
Proof.
  intros Hb. unfold posixpath.join, posixpath.join_step; simpl.
  unfold posixpath.sep. rewrite Hb, endswith_app, orb_true_r.
  by rewrite str_app_assoc.
Qed.

Lemma working_dir_sep (s : string) :
  working_dir s = ("reddit_data/" +:+ s) +:+ "/".
Proof. unfold working_dir. by rewrite str_app_assoc. Qed.

Lemma join_working_dir (s b : string) :
  PyStr.startswith b "/" = false →
  posixpath.join (working_dir s) [b] = working_dir s +:+ b.
Proof.
  intros Hb. rewrite working_dir_sep, join_after_sep by done.
  by rewrite !str_app_assoc.
Qed.

Lemma media_dir_eq (s : string) : media_dir s = working_dir s +:+ "media".
Proof. by apply join_working_dir. Qed.

Lemma mosaic_dir_eq (s : string) :
  mosaic_dir s = working_dir s +:+ "mosaics".
Proof. by apply join_working_dir. Qed.

Lemma for_each_cons {A : Type} (x : A) (xs : list A) (body : A → IO unit)
    (fs : filesystem) :
  for_each (x :: xs) body fs =
    match body x fs with
    | Returned _ fs1 => for_each xs body fs1
    | Raised e fs1 => Raised e fs1
    end.
Proof. reflexivity. Qed.

(** When the module body returns, its bindings are [bindings] and the
    file system is the one the loop left. *)
Lemma resolve_returned (s : string) (d : Z) (fs fs' : filesystem)
    (c : Config.t) :
  resolve s d fs = Returned c fs' ↔
  c = bindings s d ∧
  for_each (directories s) (λ _dir, os.makedirs _dir true) fs
    = Returned () fs'.
Proof.
  unfold resolve, mbind, IO_bind, mret, IO_ret.
  destruct (for_each _ _ fs) as [[] fs1|e fs1]; split;
    [intros [= <- <-]|intros [-> [= <-]]|intros [=]|intros [_ [=]]]; done.
Qed.

Lemma resolve_raised (s : string) (d : Z) (fs fs' : filesystem)
    (e : exception) :
  resolve s d fs = Raised e fs' ↔
  for_each (directories s) (λ _dir, os.makedirs _dir true) fs
    = Raised e fs'.
Proof.
  unfold resolve, mbind, IO_bind, mret, IO_ret.
  destruct (for_each _ _ fs) as [[] fs1|e1 fs1]; [|split; intros [= <- <-]; done].
  split; intros [=].
Qed.

Lemma dankmemes_directories :
  for_each (directories "dankmemes") (λ _dir, os.makedirs _dir true)
    fresh_fs = Returned () dankmemes_fs.
Proof. vm_compute. reflexivity. Qed.

Lemma resolve_dankmemes (d : Z) :
  resolve "dankmemes" d fresh_fs
    = Returned (bindings "dankmemes" d) dankmemes_fs.
Proof. apply resolve_returned. split; [done|apply dankmemes_directories]. Qed.

Lemma cols_conv_feats_length (d : Z) :
  0 ≤ d → Z.of_nat (length (cols_conv_feats d)) = d.
Proof.
  intros Hd. unfold cols_conv_feats, range.
  rewrite length_fmap, length_seqZ. lia.
Qed.

Lemma cols_conv_feats_lookup (d i : Z) :
  0 ≤ i < d →
  cols_conv_feats d !! Z.to_nat i = Some ("conv_" +:+ PyStr.str i).
Proof.
  intros Hi. unfold cols_conv_feats, range.
  rewrite list_lookup_fmap, lookup_seqZ_lt by lia.
  simpl. do 3 f_equal. lia.
Qed.

Lemma cols_conv_feats_NoDup (d : Z) : NoDup (cols_conv_feats d).
Proof.
  unfold cols_conv_feats, range. apply NoDup_fmap_2; [|apply NoDup_seqZ].
  intros m n Hmn. apply (inj (String.app "conv_")) in Hmn.
  by apply (inj pretty) in Hmn.
Qed.

End BindingFacts.

(** * Facts about splitting paths *)

Section SplitFacts.

Lemma split_nonempty (s : string) (c : ascii) : PyStr.split s c ≠ [].
Proof.
  destruct s as [|a s]; simpl; [done|].
  destruct (Ascii.eqb a c); [done|]. by destruct (PyStr.split s c).
Qed.

Lemma split_cons_sep (s : string) (c : ascii) :
  PyStr.split (String c s) c = "" :: PyStr.split s c.
Proof. simpl. by rewrite Ascii.eqb_refl. Qed.

(** Splitting at a separator splits the list of pieces. *)
Lemma split_app_sep (s t : string) (c : ascii) :
  PyStr.split (s +:+ String c t) c = PyStr.split s c ++ PyStr.split t c.
Proof.
  induction s as [|a s IH].
  - rewrite str_app_nil_l. apply split_cons_sep.
  - rewrite str_app_cons. simpl. rewrite IH.
    destruct (Ascii.eqb a c); [done|].
    pose proof (split_nonempty s c). by destruct (PyStr.split s c).
Qed.

Lemma split_no_sep (s : string) (c : ascii) :
  PyStr.contains s c = false → PyStr.split s c = [s].
Proof.
  induction s as [|a s IH]; simpl; [done|].
  intros [Ha Hs]%orb_false_iff. by rewrite Ha, IH.
Qed.

Lemma split_repeat (k : nat) (t : string) (c : ascii) :
  PyStr.split (PyStr.repeat c k +:+ t) c
    = replicate k "" ++ PyStr.split t c.
Proof.
  induction k as [|k IH]; [done|].
  simpl PyStr.repeat. rewrite str_app_cons, split_cons_sep, IH. done.
Qed.

Lemma contains_repeat (k : nat) (c d : ascii) :
  c ≠ d → PyStr.contains (PyStr.repeat c k) d = false.
Proof.
  intros Hcd. induction k as [|k IH]; simpl; [done|].
  rewrite IH, orb_false_r. by apply Ascii.eqb_neq.
Qed.

Lemma str_repeat_length (k : nat) (c : ascii) :
  String.length (PyStr.repeat c k) = k.
Proof. induction k; simpl; congruence. Qed.

Lemma str_repeat_snoc (k : nat) (c : ascii) :
  PyStr.repeat c (S k) = PyStr.repeat c k +:+ String c "".
Proof.
  induction k as [|k IH]; [done|].
  simpl in *. rewrite str_app_cons. by f_equal.
Qed.

Lemma str_repeat_app (j k : nat) (c : ascii) :
  PyStr.repeat c j +:+ PyStr.repeat c k = PyStr.repeat c (j + k).
Proof.
  induction j as [|j IH]; [done|]. simpl. by rewrite str_app_cons, IH.
Qed.

(** [rstrip] removes a run of the character at the end. *)
Lemma rstrip_spec (s : string) (c : ascii) :
  ∃ k, s = PyStr.rstrip s c +:+ PyStr.repeat c k
       ∧ (PyStr.rstrip s c = "" → s = PyStr.repeat c k).
Proof.
  induction s as [|a s (k & Hk & Hempty)]; [by exists 0%nat|].
  simpl. destruct (PyStr.rstrip s c) as [|b r] eqn:Hr.
  - rewrite str_app_nil_l in Hk.
    destruct (Ascii.eqb a c) eqn:Hac.
    + apply Ascii.eqb_eq in Hac as ->. exists (S k).
      rewrite str_app_nil_l. simpl. by rewrite <-Hk.
    + exists k. rewrite str_app_cons, str_app_nil_l. by rewrite <-Hk.
  - exists k. rewrite str_app_cons. split; [by rewrite <-Hk|done].
Qed.

Lemma rfind_none (p : string) (c : ascii) :
  PyStr.rfind p c = -1 ↔ PyStr.contains p c = false.
Proof.
  induction p as [|a p IH]; simpl; [done|].
  case_decide as Hi.
  - apply IH in Hi. rewrite Hi, orb_false_r. by destruct (Ascii.eqb a c).
  - assert (PyStr.contains p c ≠ false) as Hp by (by rewrite <-IH).
    apply not_false_is_true in Hp. rewrite Hp, orb_true_r.
    assert (-1 ≤ PyStr.rfind p c) as Hge; [|split; [lia|done]].
    clear. induction p as [|b p IHp]; simpl; [done|].
    case_decide; [by destruct (Ascii.eqb b c)|lia].
Qed.

Lemma rfind_ge (p : string) (c : ascii) : -1 ≤ PyStr.rfind p c.
Proof.
  induction p as [|b p IHp]; simpl; [done|].
  case_decide; [by destruct (Ascii.eqb b c)|lia].
Qed.

(** Where [posixpath.split] cuts: after the last separator. *)
Lemma split_cut (p : string) :
  let i := Z.to_nat (PyStr.rfind p posixpath.sep + 1) in
  (PyStr.contains p posixpath.sep = false
   ∧ PyStr.take i p = "" ∧ PyStr.drop i p = p)
  ∨ (∃ h t, p = h +:+ String posixpath.sep t
      ∧ PyStr.contains t posixpath.sep = false
      ∧ PyStr.take i p = h +:+ String posixpath.sep ""
      ∧ PyStr.drop i p = t).
Proof.
  induction p as [|a p IH]; [by left|].
  simpl PyStr.rfind. case_decide as Hi.
  - pose proof (proj1 (rfind_none _ _) Hi) as Hp.
    destruct (Ascii.eqb a posixpath.sep) eqn:Ha.
    + apply Ascii.eqb_eq in Ha as ->. right. exists "", p.
      change (Z.to_nat (0 + 1)) with 1%nat. by simpl.
    + left. change (Z.to_nat (-1 + 1)) with 0%nat. simpl.
      by rewrite Ha, Hp.
  - pose proof (rfind_ge p posixpath.sep).
    replace (Z.to_nat (PyStr.rfind p posixpath.sep + 1 + 1))
      with (S (Z.to_nat (PyStr.rfind p posixpath.sep + 1))) by lia.
    simpl in IH. destruct IH as [(Hp & _)|(h & t & Hp & Ht & Htake & Hdrop)].
    { by apply rfind_none in Hp. }
    right. exists (String a h), t. simpl.
    rewrite Htake, Hdrop, !str_app_cons. by rewrite <-Hp.
Qed.

Lemma rstrip_no_trailing (s h : string) (c : ascii) :
  PyStr.rstrip s c ≠ h +:+ String c "".
Proof.
  revert h. induction s as [|a s IH]; intros h; simpl.
  { by destruct h. }
  destruct (PyStr.rstrip s c) as [|b r] eqn:Hr.
  - destruct (Ascii.eqb a c) eqn:Hac; [by destruct h|].
    apply Ascii.eqb_neq in Hac.
    destruct h as [|x [|y h]]; rewrite ?str_app_cons, ?str_app_nil_l; congruence.
  - destruct h as [|x h]; rewrite ?str_app_cons, ?str_app_nil_l.
    + congruence.
    + intros [= -> Hh]. by apply (IH h).
Qed.

Lemma truthy_true (s : string) : PyStr.truthy s = true ↔ s ≠ "".
Proof. by destruct s. Qed.

Lemma truthy_false (s : string) : PyStr.truthy s = false ↔ s = "".
Proof. by destruct s. Qed.

(** What [posixpath.split] returns: the head, a run of separators that
    was stripped, and a tail free of separators. *)
Lemma posixpath_split_spec (p head tail : string) :
  posixpath.split p = (head, tail) →
  PyStr.contains tail posixpath.sep = false
  ∧ ∃ k, p = head +:+ PyStr.repeat posixpath.sep k +:+ tail
      ∧ (head = "" → k = 0%nat)
      ∧ (head ≠ "" →
         (0 < k)%nat
         ∨ head = PyStr.repeat posixpath.sep (String.length head)).
Proof.
  unfold posixpath.split. intros [= Hhead Htail].
  destruct (split_cut p) as [(Hp & Htake & Hdrop)|(h & t & Hp & Ht & Htake & Hdrop)];
    rewrite Htake in Hhead; rewrite Hdrop in Htail; subst tail.
  - simpl in Hhead. subst head. split; [done|]. by exists 0%nat.
  - split; [done|].
    assert (PyStr.truthy (h +:+ String posixpath.sep "") = true) as Htr.
    { by destruct h. }
    rewrite Htr in Hhead. simpl in Hhead.
    destruct (String.eqb_spec (h +:+ String posixpath.sep "")
      (PyStr.repeat posixpath.sep
         (String.length (h +:+ String posixpath.sep "")))) as [Hall|Hall];
      simpl in Hhead; subst head.
    + exists 0%nat. rewrite str_app_nil_l. split_and!.
      * by rewrite Hp, str_app_assoc.
      * done.
      * by right.
    + destruct (rstrip_spec (h +:+ String posixpath.sep "") posixpath.sep)
        as (k & Hk & Hempty).
      exists k. split_and!.
      * rewrite Hp. rewrite <-(str_app_assoc _ _ t), <-Hk. by rewrite str_app_assoc.
      * intros Hr. destruct Hall. rewrite (Hempty Hr) at 1.
        f_equal. by rewrite (Hempty Hr) at 1; rewrite str_repeat_length.
      * intros _. left. destruct k; [|lia].
        rewrite str_app_nil_r in Hk. symmetry in Hk.
        by apply rstrip_no_trailing in Hk.
Qed.

(** The head and tail [os.makedirs] works with, after its second
    [split] when the name ends in a separator. *)
Lemma head_tail_spec (name h1 t1 head tail : string) :
  posixpath.split name = (h1, t1) →
  (if negb (PyStr.truthy t1) then posixpath.split h1 else (h1, t1))
    = (head, tail) →
  PyStr.contains tail posixpath.sep = false
  ∧ ∃ k j, name = head +:+ PyStr.repeat posixpath.sep k +:+ tail
                   +:+ PyStr.repeat posixpath.sep j
      ∧ (head = "" → k = 0%nat)
      ∧ (head ≠ "" →
         (0 < k)%nat
         ∨ head = PyStr.repeat posixpath.sep (String.length head)).
Proof.
  intros (Ht1 & k1 & Hname & Hk1 & Hh1)%posixpath_split_spec Hsecond.
  destruct t1 as [|a t1]; simpl in Hsecond.
  - apply posixpath_split_spec in Hsecond as (Ht & k & Hh & Hk & Hhead).
    split; [done|]. exists k, k1. split; [|done].
    rewrite Hname, Hh, str_app_nil_r. by rewrite !str_app_assoc.
  - injection Hsecond as <- <-. split; [done|].
    exists k1, 0%nat. by rewrite str_app_nil_r.
Qed.

Lemma head_tail_shorter (name h1 t1 head tail : string) :
  posixpath.split name = (h1, t1) →
  (if negb (PyStr.truthy t1) then posixpath.split h1 else (h1, t1))
    = (head, tail) →
  tail ≠ "" → (String.length head < String.length name)%nat.
Proof.
  intros H1 H2 Htail.
  destruct (head_tail_spec _ _ _ _ _ H1 H2) as (_ & k & j & -> & _).
  rewrite !str_app_length. destruct tail; [done|]. simpl. lia.
Qed.

End SplitFacts.

(** * Facts about path resolution *)

Section ResolutionFacts.

Lemma walk_app (ns : gmap (list string) inode) (cur : list string)
    (cs1 cs2 : list string) :
  kernel.walk ns cur (cs1 ++ cs2) =
    match kernel.walk ns cur cs1 with
    | inl e => inl e
    | inr l => kernel.walk ns l cs2
    end.
Proof.
  revert cur. induction cs1 as [|c cs1 IH]; intros cur; simpl; [done|].
  by destruct (ns !! cur) as [[|w]|].
Qed.

Lemma walk_cons_inv (ns : gmap (list string) inode) (cur l : list string)
    (c : string) (cs : list string) :
  kernel.walk ns cur (c :: cs) = inr l →
  kernel.is_dir (ns !! cur) = true
  ∧ kernel.walk ns (kernel.step cur c) cs = inr l.
Proof. simpl. by destruct (ns !! cur) as [[|w]|]. Qed.

Lemma walk_cons_dir (ns : gmap (list string) inode) (cur : list string)
    (c : string) (cs : list string) :
  kernel.is_dir (ns !! cur) = true →
  kernel.walk ns cur (c :: cs) = kernel.walk ns (kernel.step cur c) cs.
Proof. simpl. by destruct (ns !! cur) as [[|w]|]. Qed.

Lemma walk_mono (ns ns' : gmap (list string) inode) (cur l : list string)
    (cs : list string) :
  ns ⊆ ns' → kernel.walk ns cur cs = inr l → kernel.walk ns' cur cs = inr l.
Proof.
  intros Hsub. revert cur. induction cs as [|c cs IH]; intros cur; [done|].
  simpl. destruct (ns !! cur) as [[|w]|] eqn:Hcur; try done.
  rewrite (lookup_weaken _ _ _ _ Hcur Hsub). apply IH.
Qed.

Lemma is_dir_mono (ns ns' : gmap (list string) inode) (l : list string) :
  ns ⊆ ns' → kernel.is_dir (ns !! l) = true → kernel.is_dir (ns' !! l) = true.
Proof.
  intros Hsub. destruct (ns !! l) as [i|] eqn:Hl; [|done].
  by rewrite (lookup_weaken _ _ _ _ Hl Hsub).
Qed.

Lemma step_empty (cur : list string) : kernel.step cur "" = cur.
Proof. done. Qed.

Lemma walk_empties (ns : gmap (list string) inode) (cur : list string)
    (k : nat) :
  kernel.is_dir (ns !! cur) = true →
  kernel.walk ns cur (replicate k "") = inr cur.
Proof.
  intros Hdir. induction k as [|k IH]; [done|].
  simpl replicate. by rewrite walk_cons_dir.
Qed.

(** Resolving a path resolves what stands before any of its separators,
    to a directory. *)
Lemma walk_sep_prefix (ns : gmap (list string) inode) (st l : list string)
    (x r : string) :
  kernel.walk ns st (kernel.components (x +:+ String posixpath.sep r))
    = inr l →
  ∃ lx, kernel.walk ns st (kernel.components x) = inr lx
        ∧ kernel.is_dir (ns !! lx) = true
        ∧ kernel.walk ns lx (kernel.components r) = inr l.
Proof.
  unfold kernel.components. rewrite split_app_sep, walk_app.
  destruct (kernel.walk ns st _) as [e|lx]; [done|]. intros Hr.
  exists lx. split_and!; [done| |done].
  pose proof (split_nonempty r posixpath.sep).
  destruct (PyStr.split r posixpath.sep) as [|c cs]; [done|].
  by apply walk_cons_inv in Hr as [? _].
Qed.

Lemma start_app (fs : filesystem) (h r : string) :
  h ≠ "" → kernel.start fs (h +:+ r) = kernel.start fs h.
Proof.
  intros Hh. destruct h as [|a h]; [done|].
  unfold kernel.start, PyStr.startswith. rewrite str_app_cons.
  cbn [String.prefix].
  destruct (ascii_dec "/" a); [|done]. by destruct (h +:+ r), h.
Qed.

Lemma start_app_sep (fs : filesystem) (x r : string) :
  kernel.start fs (x +:+ String posixpath.sep r)
    = kernel.start fs (x +:+ String posixpath.sep "").
Proof.
  destruct x as [|a x].
  - rewrite !str_app_nil_l. unfold kernel.start, PyStr.startswith.
    cbn [String.prefix]. unfold posixpath.sep.
    destruct (ascii_dec "/" "/"); [|done]. by destruct r.
  - by rewrite !(start_app fs (String a x)).
Qed.

Lemma start_cwd (fs fs' : filesystem) (p : string) :
  cwd fs' = cwd fs → kernel.start fs' p = kernel.start fs p.
Proof. unfold kernel.start. by intros ->. Qed.

Lemma locate_Some (p : string) (fs : filesystem) (loc : list string) :
  locate p fs = Some loc ↔
  p ≠ "" ∧ PyStr.contains p NUL = false
  ∧ kernel.walk (nodes fs) (kernel.start fs p) (kernel.components p)
      = inr loc.
Proof.
  unfold locate. rewrite <-truthy_true.
  destruct (PyStr.truthy p); cbn [andb].
  2:{ split; [done|]. by intros [? _]. }
  destruct (PyStr.contains p NUL); cbn [negb].
  { split; [done|]. by intros (_ & ? & _). }
  destruct (kernel.walk _ _ _) as [e|l]; split.
  - done.
  - by intros (_ & _ & ?).
  - by intros [= ->].
  - by intros (_ & _ & [= ->]).
Qed.

Lemma stat_locate (p : string) (fs : filesystem) (i : inode) :
  genericpath.os_stat p fs = inr i ↔
  ∃ loc, locate p fs = Some loc ∧ nodes fs !! loc = Some i.
Proof.
  unfold genericpath.os_stat, kernel.stat, locate.
  destruct (PyStr.contains p NUL).
  { rewrite andb_false_r. split; [done|]. by intros (? & ? & _). }
  destruct (PyStr.truthy p); simpl.
  2:{ split; [done|]. by intros (? & ? & _). }
  destruct (kernel.walk _ _ _) as [e|l].
  { split; [done|]. by intros (? & ? & _). }
  destruct (nodes fs !! l) as [i'|] eqn:Hl; split.
  - intros [= ->]. by exists l.
  - intros (l' & [= <-] & Hi). congruence.
  - done.
  - intros (l' & [= <-] & Hi). congruence.
Qed.

Lemma isdir_locate (p : string) (fs : filesystem) :
  genericpath.isdir p fs = true ↔
  ∃ loc, locate p fs = Some loc ∧ kernel.is_dir (nodes fs !! loc) = true.
Proof.
  unfold genericpath.isdir.
  destruct (genericpath.os_stat p fs) as [e|i] eqn:Hstat; split.
  - done.
  - intros (l & Hl & Hd). destruct (nodes fs !! l) as [i|] eqn:Hi; [|done].
    assert (genericpath.os_stat p fs = inr i) as Hs.
    { apply stat_locate. by exists l. }
    congruence.
  - apply stat_locate in Hstat as (l & Hl & Hi). intros Hd.
    exists l. by rewrite Hi.
  - apply stat_locate in Hstat as (l & Hl & Hi).
    intros (l' & Hl' & Hd). congruence.
Qed.

Lemma exists_locate (p : string) (fs : filesystem) :
  genericpath.exists_ p fs = true ↔
  ∃ loc, locate p fs = Some loc ∧ is_Some (nodes fs !! loc).
Proof.
  unfold genericpath.exists_.
  destruct (genericpath.os_stat p fs) as [e|i] eqn:Hstat; split.
  - done.
  - intros (l & Hl & [i Hi]).
    assert (genericpath.os_stat p fs = inr i) as Hs.
    { apply stat_locate. by exists l. }
    congruence.
  - apply stat_locate in Hstat as (l & Hl & Hi). intros _.
    exists l. by rewrite Hi.
  - done.
Qed.

Lemma isdir_exists (p : string) (fs : filesystem) :
  genericpath.isdir p fs = true → genericpath.exists_ p fs = true.
Proof.
  rewrite isdir_locate, exists_locate. intros (l & Hl & Hd).
  exists l. split; [done|]. by destruct (nodes fs !! l).
Qed.

Lemma locate_mono (p : string) (fs fs' : filesystem) (loc : list string) :
  cwd fs' = cwd fs → nodes fs ⊆ nodes fs' →
  locate p fs = Some loc → locate p fs' = Some loc.
Proof.
  intros Hcwd Hsub. rewrite !locate_Some. intros (? & ? & Hwalk).
  split_and!; [done..|]. rewrite (start_cwd fs) by done.
  by eapply walk_mono.
Qed.

Lemma isdir_mono (p : string) (fs fs' : filesystem) :
  cwd fs' = cwd fs → nodes fs ⊆ nodes fs' →
  genericpath.isdir p fs = true → genericpath.isdir p fs' = true.
Proof.
  intros Hcwd Hsub. rewrite !isdir_locate. intros (l & Hl & Hd).
  exists l. split; [by eapply locate_mono|by eapply is_dir_mono].
Qed.

(** A path that resolves has a head that is a directory. *)
Lemma isdir_head (name head rest : string) (k : nat) (fs : filesystem)
    (l : list string) :
  name = head +:+ PyStr.repeat posixpath.sep k +:+ rest →
  head ≠ "" →
  (0 < k)%nat ∨ head = PyStr.repeat posixpath.sep (String.length head) →
  locate name fs = Some l →
  genericpath.isdir head fs = true.
Proof.
  intros -> Hhead Hk (_ & Hnul & Hwalk)%locate_Some.
  rewrite contains_app in Hnul. apply orb_false_iff in Hnul as [Hnul _].
  rewrite start_app in Hwalk by done.
  cut (∃ lx, kernel.walk (nodes fs) (kernel.start fs head)
               (kernel.components head) = inr lx
             ∧ kernel.is_dir (nodes fs !! lx) = true).
  { intros (lx & Hlx & Hd). apply isdir_locate. exists lx.
    split; [|done]. by apply locate_Some. }
  destruct Hk as [Hk|Hall].
  - destruct k as [|k]; [lia|]. simpl in Hwalk. rewrite str_app_cons in Hwalk.
    apply walk_sep_prefix in Hwalk as (lx & Hlx & Hd & _). by exists lx.
  - destruct (String.length head) as [|m] eqn:Hm.
    { by destruct head. }
    rewrite str_repeat_snoc in Hall. subst head.
    rewrite str_app_assoc, str_app_cons, str_app_nil_l in Hwalk.
    apply walk_sep_prefix in Hwalk as (lx & Hlx & Hd & _).
    exists lx. split; [|done].
    unfold kernel.components in *. rewrite split_app_sep, walk_app, Hlx.
    by apply (walk_empties _ _ 1).
Qed.

Lemma isdir_sep_prefix (x r : string) (fs : filesystem) (l : list string) :
  locate (x +:+ String posixpath.sep r) fs = Some l →
  genericpath.isdir (x +:+ String posixpath.sep "") fs = true.
Proof.
  intros (_ & Hnul & Hwalk)%locate_Some.
  rewrite start_app_sep in Hwalk.
  apply walk_sep_prefix in Hwalk as (lx & Hlx & Hd & _).
  apply isdir_locate. exists lx. split; [|done]. apply locate_Some.
  split_and!.
  - by destruct x.
  - rewrite contains_app in Hnul |- *.
    by apply orb_false_iff in Hnul as [-> _].
  - unfold kernel.components in *. rewrite split_app_sep, walk_app, Hlx.
    by apply (walk_empties _ _ 1).
Qed.

End ResolutionFacts.

(** * Facts about [mkdir] *)

Section MkdirFacts.

Lemma strip_trailing_spec (cs : list string) :
  ∃ k, cs = kernel.strip_trailing cs ++ replicate k ""
       ∧ ∀ init c, kernel.strip_trailing cs = init ++ [c] → c ≠ "".
Proof.
  induction cs as [|c cs (k & Hk & Hlast)]; simpl.
  { exists 0%nat. split; [done|]. by intros [|??] ?. }
  destruct (kernel.strip_trailing cs) as [|r0 rs] eqn:Hr.
  - destruct c as [|a c]; simpl.
    + exists (S k). split; [simpl in *; congruence|]. by intros [|??] ?.
    + exists k. split; [simpl in *; congruence|].
      intros init c0 Heq. by destruct init as [|? [|??]]; simplify_eq/=.
  - exists k. split; [simpl in *; congruence|].
    intros [|c0 init] c1; [by intros [=]|].
    intros [= -> Hinit]. by eapply Hlast.
Qed.

Lemma walk_error (ns : gmap (list string) inode) (cur : list string)
    (cs : list string) (e : exception) :
  kernel.walk ns cur cs = inl e →
  e = FileNotFoundError ∨ e = NotADirectoryError.
Proof.
  revert cur. induction cs as [|c cs IH]; intros cur; simpl; [done|].
  destruct (ns !! cur) as [[|w]|]; [intros [= <-]; by right|apply IH|].
  intros [= <-]; by left.
Qed.

(** What a successful [mkdir] found and did. *)
Lemma mkdir_inv (p : string) (fs fs' : filesystem) :
  kernel.mkdir p fs = inr fs' →
  ∃ parents name parent k,
    kernel.components p = parents ++ [name] ++ replicate k ""
    ∧ name ≠ "" ∧ name ≠ "." ∧ name ≠ ".."
    ∧ kernel.walk (nodes fs) (kernel.start fs p) parents = inr parent
    ∧ nodes fs !! parent = Some (Dir true)
    ∧ nodes fs !! (name :: parent) = None
    ∧ fs' = Filesystem (<[name :: parent := Dir true]> (nodes fs)) (cwd fs).
Proof.
  unfold kernel.mkdir. destruct (PyStr.truthy p); [|done].
  destruct (strip_trailing_spec (kernel.components p)) as (k & Hk & Hlast).
  destruct (reverse (kernel.strip_trailing (kernel.components p)))
    as [|name rparents] eqn:Hrev; [done|].
  apply (f_equal reverse) in Hrev.
  rewrite reverse_involutive, reverse_cons in Hrev.
  destruct (kernel.walk _ _ _) as [e|parent] eqn:Hwalk; [done|].
  unfold kernel.create.
  destruct (nodes fs !! parent) as [[|w]|] eqn:Hparent; [done| |done].
  case_decide as Hdots; [done|]. case_decide as Hnew; [done|].
  destruct w; [|done]. intros [= <-].
  exists (reverse rparents), name, parent, k. split_and!; try done.
  - rewrite Hk at 1. by rewrite Hrev, <-(assoc_L (++)).
  - by eapply Hlast.
  - tauto.
  - tauto.
  - by apply eq_None_not_Some.
Qed.

Lemma mkdir_error (p : string) (fs : filesystem) (e : exception) :
  kernel.mkdir p fs = inl e → is_OSError e = true.
Proof.
  unfold kernel.mkdir. destruct (PyStr.truthy p); [|by intros [= <-]].
  destruct (reverse _) as [|name rparents]; [by intros [= <-]|].
  destruct (kernel.walk _ _ _) as [e'|parent] eqn:Hwalk.
  { intros [= <-]. by destruct (walk_error _ _ _ _ Hwalk) as [-> | ->]. }
  unfold kernel.create.
  destruct (nodes fs !! parent) as [[|w]|]; try by intros [= <-].
  repeat case_decide; try by intros [= <-].
  destruct w; [done|by intros [= <-]].
Qed.

Lemma mkdir_PermissionError (p : string) (fs : filesystem) :
  kernel.mkdir p fs = inl PermissionError →
  ∃ loc, nodes fs !! loc = Some (Dir false).
Proof.
  unfold kernel.mkdir. destruct (PyStr.truthy p); [|done].
  destruct (reverse _) as [|name rparents]; [done|].
  destruct (kernel.walk _ _ _) as [e'|parent] eqn:Hwalk.
  { intros [= ->]. by destruct (walk_error _ _ _ _ Hwalk). }
  unfold kernel.create.
  destruct (nodes fs !! parent) as [[|w]|] eqn:Hparent; try done.
  repeat case_decide; try done. destruct w; [done|]. by exists parent.
Qed.

(** After [mkdir] the path names the one new node, a writable
    directory. *)
Lemma mkdir_locate (p : string) (fs fs' : filesystem) :
  PyStr.contains p NUL = false →
  kernel.mkdir p fs = inr fs' →
  ∃ loc, locate p fs' = Some loc
         ∧ nodes fs !! loc = None
         ∧ nodes fs' = <[loc := Dir true]> (nodes fs)
         ∧ cwd fs' = cwd fs.
Proof.
  intros Hnul Hmk.
  assert (p ≠ "") as Hp.
  { intros ->. done. }
  apply mkdir_inv in Hmk
    as (parents & name & parent & k & Hcs & Hn & Hdot & Hdots
        & Hwalk & Hparent & Hnew & ->).
  exists (name :: parent). split_and!; try done.
  apply locate_Some. split_and!; [done..|]. simpl.
  assert (nodes fs ⊆ <[name :: parent := Dir true]> (nodes fs)) as Hsub.
  { by apply insert_subseteq. }
  rewrite Hcs, walk_app.
  rewrite (start_cwd fs) by done.
  rewrite (walk_mono _ _ _ _ _ Hsub Hwalk).
  change ([name] ++ replicate k "") with (name :: replicate k "").
  rewrite walk_cons_dir.
  2:{ eapply is_dir_mono; [done|]. by rewrite Hparent. }
  assert (kernel.step parent name = name :: parent) as ->.
  { unfold kernel.step. rewrite decide_False by (intros [?|?]; done).
    by rewrite decide_False. }
  apply walk_empties. by rewrite lookup_insert_eq.
Qed.

(** [mkdir] on a path that names a directory fails. *)
Lemma mkdir_isdir (p : string) (fs : filesystem) :
  genericpath.isdir p fs = true →
  ∃ e, kernel.mkdir p fs = inl e ∧ is_OSError e = true.
Proof.
  intros (l & (Hp & Hnul & Hwalk)%locate_Some & Hd)%isdir_locate.
  destruct (kernel.mkdir p fs) as [e|fs'] eqn:Hmk.
  { exists e. split; [done|]. by eapply mkdir_error. }
  apply mkdir_inv in Hmk
    as (parents & name & parent & k & Hcs & Hn & Hdot & Hdots
        & Hparents & Hparent & Hnew & ->).
  rewrite Hcs, walk_app, Hparents in Hwalk.
  change ([name] ++ replicate k "") with (name :: replicate k "") in Hwalk.
  apply walk_cons_inv in Hwalk as [_ Hwalk].
  assert (kernel.step parent name = name :: parent) as Hstep.
  { unfold kernel.step. rewrite decide_False by (intros [?|?]; done).
    by rewrite decide_False. }
  rewrite Hstep in Hwalk. destruct k as [|k]; simpl in Hwalk.
  - simplify_eq. by rewrite Hnew in Hd.
  - by rewrite Hnew in Hwalk.
Qed.

End MkdirFacts.

(** * Facts about [os.makedirs] *)

Section MakedirsFacts.

Lemma makedirs_leaf_eq (name : string) (ok : bool) (fs : filesystem) :
  os.makedirs_leaf name ok fs =
    if PyStr.contains name NUL then Raised ValueError fs
    else match kernel.mkdir name fs with
         | inr fs' => Returned () fs'
         | inl e =>
             if negb ok || negb (genericpath.isdir name fs)
             then Raised e fs else Returned () fs
         end.
Proof.
  unfold os.makedirs_leaf, try_except, os.mkdir.
  destruct (PyStr.contains name NUL); [done|].
  destruct (kernel.mkdir name fs) as [e|fs'] eqn:Hmk; [|done].
  rewrite (mkdir_error _ _ _ Hmk).
  unfold mbind, IO_bind, reads, raise, mret, IO_ret.
  by destruct (negb ok || negb (genericpath.isdir name fs)).
Qed.

Lemma makedirs_depth_S (n : nat) (name h1 t1 head tail : string)
    (ok : bool) (fs : filesystem) :
  posixpath.split name = (h1, t1) →
  (if negb (PyStr.truthy t1) then posixpath.split h1 else (h1, t1))
    = (head, tail) →
  os.makedirs_depth (S n) name ok fs =
    if PyStr.truthy head && PyStr.truthy tail
       && negb (genericpath.exists_ head fs)
    then
      match os.makedirs_depth n head ok fs with
      | Returned _ fs1 =>
          if String.eqb tail "." then Returned () fs1
          else os.makedirs_leaf name ok fs1
      | Raised e fs1 =>
          if bool_decide (e = FileExistsError) then
            if String.eqb tail "." then Returned () fs1
            else os.makedirs_leaf name ok fs1
          else Raised e fs1
      end
    else os.makedirs_leaf name ok fs.
Proof.
  intros H1 H2. cbn [os.makedirs_depth]. rewrite H1, H2.
  unfold mbind, IO_bind, reads, try_except, mret, IO_ret.
  destruct (_ && negb _); [|done].
  change posixpath.curdir with ".".
  destruct (os.makedirs_depth n head ok fs) as [[] fs1|e fs1].
  - by destruct (String.eqb tail ".").
  - destruct (bool_decide _); [|done]. by destruct (String.eqb tail ".").
Qed.

(** The last statement of [makedirs] either leaves the file system as it
    is or makes one directory. *)
Lemma makedirs_leaf_cases (name : string) (ok : bool) (fs : filesystem) :
  final_fs (os.makedirs_leaf name ok fs) = fs
  ∨ (PyStr.contains name NUL = false
     ∧ kernel.mkdir name fs = inr (final_fs (os.makedirs_leaf name ok fs))
     ∧ os.makedirs_leaf name ok fs
       = Returned () (final_fs (os.makedirs_leaf name ok fs))).
Proof.
  rewrite makedirs_leaf_eq.
  destruct (PyStr.contains name NUL); [by left|].
  destruct (kernel.mkdir name fs) as [e|fs'] eqn:Hmk; [|by right].
  left. by destruct (negb ok || negb _).
Qed.

Lemma makedirs_leaf_raised (name : string) (ok : bool) (fs fs' : filesystem)
    (e : exception) :
  os.makedirs_leaf name ok fs = Raised e fs' →
  fs' = fs
  ∧ (e = ValueError ∧ PyStr.contains name NUL = true
     ∨ kernel.mkdir name fs = inl e ∧ PyStr.contains name NUL = false).
Proof.
  rewrite makedirs_leaf_eq.
  destruct (PyStr.contains name NUL); [intros [= <- <-]; by auto|].
  destruct (kernel.mkdir name fs) as [e'|fs1] eqn:Hmk; [|done].
  destruct (negb ok || negb _); [|done]. intros [= <- <-]. by auto.
Qed.

Lemma makedirs_leaf_returned (name : string) (fs fs' : filesystem) :
  os.makedirs_leaf name true fs = Returned () fs' →
  genericpath.isdir name fs' = true.
Proof.
  rewrite makedirs_leaf_eq.
  destruct (PyStr.contains name NUL) eqn:Hnul; [done|].
  destruct (kernel.mkdir name fs) as [e'|fs1] eqn:Hmk.
  - simpl. destruct (genericpath.isdir name fs) eqn:Hd; [|done].
    by intros [= <-].
  - intros [= <-].
    destruct (mkdir_locate _ _ _ Hnul Hmk) as (loc & Hloc & _ & Hns & _).
    apply isdir_locate. exists loc. split; [done|].
    by rewrite Hns, lookup_insert_eq.
Qed.

(** A relation between file systems that holds across every [mkdir]
    holds across [makedirs]. *)
Lemma makedirs_depth_rel (R : filesystem → filesystem → Prop) :
  (∀ fs, R fs fs) →
  (∀ fs1 fs2 fs3, R fs1 fs2 → R fs2 fs3 → R fs1 fs3) →
  (∀ p fs fs', PyStr.contains p NUL = false →
     kernel.mkdir p fs = inr fs' → R fs fs') →
  ∀ n name ok fs, R fs (final_fs (os.makedirs_depth n name ok fs)).
Proof.
  intros Hrefl Htrans Hmkdir.
  assert (∀ name ok fs, R fs (final_fs (os.makedirs_leaf name ok fs)))
    as Hleaf.
  { intros name ok fs.
    destruct (makedirs_leaf_cases name ok fs) as [->|(? & ? & _)]; eauto. }
  induction n as [|n IH]; intros name ok fs; [apply Hrefl|].
  destruct (posixpath.split name) as [h1 t1] eqn:H1.
  destruct (if negb (PyStr.truthy t1) then posixpath.split h1 else (h1, t1))
    as [head tail] eqn:H2.
  rewrite (makedirs_depth_S _ _ _ _ _ _ _ _ H1 H2).
  destruct (_ && negb _); [|apply Hleaf].
  specialize (IH head ok fs).
  destruct (os.makedirs_depth n head ok fs) as [[] fs1|e fs1];
    simpl in IH.
  - destruct (String.eqb tail "."); [done|]. eapply Htrans, Hleaf. done.
  - destruct (bool_decide _); [|done].
    destruct (String.eqb tail "."); [done|]. eapply Htrans, Hleaf. done.
Qed.

Lemma only_new_directories_refl (fs : filesystem) :
  only_new_directories fs fs.
Proof. split_and!; [done..|]. intros loc i Hnone Hsome. congruence. Qed.

Lemma only_new_directories_trans (fs1 fs2 fs3 : filesystem) :
  only_new_directories fs1 fs2 → only_new_directories fs2 fs3 →
  only_new_directories fs1 fs3.
Proof.
  intros (Hcwd1 & Hold1 & Hnew1) (Hcwd2 & Hold2 & Hnew2). split_and!.
  - congruence.
  - auto.
  - intros loc i Hnone Hsome.
    destruct (nodes fs2 !! loc) as [j|] eqn:H2; [|by eauto].
    pose proof (Hold2 _ _ H2). pose proof (Hnew1 _ _ Hnone H2). congruence.
Qed.

Lemma only_new_directories_mkdir (p : string) (fs fs' : filesystem) :
  PyStr.contains p NUL = false → kernel.mkdir p fs = inr fs' →
  only_new_directories fs fs'.
Proof.
  intros Hnul Hmk.
  destruct (mkdir_locate _ _ _ Hnul Hmk) as (loc & _ & Hnone & Hns & Hcwd).
  split_and!; [done|..]; intros l i; rewrite Hns, lookup_insert;
    case_decide; subst; congruence.
Qed.

Lemma only_new_directories_subseteq (fs fs' : filesystem) :
  only_new_directories fs fs' → nodes fs ⊆ nodes fs'.
Proof. intros (_ & Hold & _). by apply map_subseteq_spec. Qed.

(** [makedirs] adds directories and changes nothing else, whether it
    returns or raises. *)
Lemma makedirs_depth_frame (n : nat) (name : string) (ok : bool)
    (fs : filesystem) :
  only_new_directories fs (final_fs (os.makedirs_depth n name ok fs)).
Proof.
  apply makedirs_depth_rel;
    eauto using only_new_directories_refl, only_new_directories_trans,
      only_new_directories_mkdir.
Qed.

(** The depth [makedirs] starts with is never used up. *)
Lemma makedirs_depth_no_RecursionError (n : nat) (name : string)
    (ok : bool) (fs fs' : filesystem) :
  (String.length name < n)%nat →
  os.makedirs_depth n name ok fs ≠ Raised RecursionError fs'.
Proof.
  assert (∀ name fs, os.makedirs_leaf name ok fs ≠ Raised RecursionError fs')
    as Hleaf.
  { intros name' fs1 [_ [[? _]|[Hmk%mkdir_error _]]]%makedirs_leaf_raised;
      done. }
  revert name fs. induction n as [|n IH]; intros name fs Hlen; [lia|].
  destruct (posixpath.split name) as [h1 t1] eqn:H1.
  destruct (if negb (PyStr.truthy t1) then posixpath.split h1 else (h1, t1))
    as [head tail] eqn:H2.
  rewrite (makedirs_depth_S _ _ _ _ _ _ _ _ H1 H2).
  destruct (PyStr.truthy head && PyStr.truthy tail) eqn:Hht;
    simpl; [|apply Hleaf].
  destruct (genericpath.exists_ head fs); simpl; [apply Hleaf|].
  apply andb_true_iff in Hht as [_ Htail%truthy_true].
  pose proof (head_tail_shorter _ _ _ _ _ H1 H2 Htail) as Hshort.
  specialize (IH head fs ltac:(lia)).
  destruct (os.makedirs_depth n head ok fs) as [[] fs1|e fs1].
  - destruct (String.eqb tail "."); [done|apply Hleaf].
  - case_bool_decide as He.
    + destruct (String.eqb tail "."); [done|apply Hleaf].
    + intros [= -> ->]. done.
Qed.

(** Any depth above the length of the name gives the same outcome. *)
Lemma makedirs_depth_enough (n m : nat) (name : string) (ok : bool)
    (fs : filesystem) :
  (String.length name < n)%nat → (String.length name < m)%nat →
  os.makedirs_depth n name ok fs = os.makedirs_depth m name ok fs.
Proof.
  revert m name fs. induction n as [|n IH]; intros [|m] name fs Hn Hm;
    [lia..|].
  destruct (posixpath.split name) as [h1 t1] eqn:H1.
  destruct (if negb (PyStr.truthy t1) then posixpath.split h1 else (h1, t1))
    as [head tail] eqn:H2.
  rewrite !(makedirs_depth_S _ _ _ _ _ _ _ _ H1 H2).
  destruct (PyStr.truthy head && PyStr.truthy tail) eqn:Hht; [|done].
  apply andb_true_iff in Hht as [_ Htail%truthy_true].
  pose proof (head_tail_shorter _ _ _ _ _ H1 H2 Htail) as Hshort.
  by rewrite (IH m head fs) by lia.
Qed.

(** On a name that is a directory already, [makedirs] with
    [exist_ok=True] returns and changes nothing. *)
Lemma makedirs_depth_isdir (n : nat) (name : string) (fs : filesystem) :
  genericpath.isdir name fs = true →
  os.makedirs_depth (S n) name true fs = Returned () fs.
Proof.
  intros Hdir.
  destruct (posixpath.split name) as [h1 t1] eqn:H1.
  destruct (if negb (PyStr.truthy t1) then posixpath.split h1 else (h1, t1))
    as [head tail] eqn:H2.
  rewrite (makedirs_depth_S _ _ _ _ _ _ _ _ H1 H2).
  pose proof Hdir as (l & Hl & _)%isdir_locate.
  assert (PyStr.truthy head && PyStr.truthy tail
          && negb (genericpath.exists_ head fs) = false) as ->.
  { destruct (PyStr.truthy head) eqn:Hhead; [|done].
    destruct (PyStr.truthy tail); [|done]. simpl.
    apply negb_false_iff, isdir_exists.
    destruct (head_tail_spec _ _ _ _ _ H1 H2) as (_ & k & j & Hname & _ & Hk).
    apply truthy_true in Hhead. eapply isdir_head; eauto. }
  rewrite makedirs_leaf_eq.
  apply locate_Some in Hl as (_ & -> & _).
  destruct (mkdir_isdir _ _ Hdir) as (e & -> & _). by rewrite Hdir.
Qed.

(** When [makedirs] returns from its last statement, the name is a
    directory. *)
Lemma makedirs_depth_returned (n : nat) (name h1 t1 head tail : string)
    (fs fs' : filesystem) :
  posixpath.split name = (h1, t1) →
  (if negb (PyStr.truthy t1) then posixpath.split h1 else (h1, t1))
    = (head, tail) →
  tail ≠ "." →
  os.makedirs_depth n name true fs = Returned () fs' →
  genericpath.isdir name fs' = true.
Proof.
  intros H1 H2 Htail%String.eqb_neq. destruct n as [|n]; [done|].
  rewrite (makedirs_depth_S _ _ _ _ _ _ _ _ H1 H2), Htail.
  destruct (_ && negb _); [|apply makedirs_leaf_returned].
  destruct (os.makedirs_depth n head true fs) as [[] fs1|e fs1].
  - apply makedirs_leaf_returned.
  - destruct (bool_decide _); [apply makedirs_leaf_returned|done].
Qed.

Lemma app_sep_inj (x h t t' : string) (c : ascii) :
  PyStr.contains t c = false → PyStr.contains t' c = false →
  x +:+ String c t = h +:+ String c t' → x = h ∧ t = t'.
Proof.
  intros Ht Ht'. revert h.
  induction x as [|a x IH]; intros [|b h];
    rewrite ?str_app_nil_l, ?str_app_cons.
  - by intros [= ->].
  - intros [= -> ->]. rewrite contains_app in Ht. simpl in Ht.
    by rewrite Ascii.eqb_refl, orb_true_r in Ht.
  - intros [= -> <-]. rewrite contains_app in Ht'. simpl in Ht'.
    by rewrite Ascii.eqb_refl, orb_true_r in Ht'.
  - intros [= -> [-> ->]%IH]. done.
Qed.

(** The tail of a path is what follows its last separator. *)
Lemma posixpath_split_snd (x t : string) :
  PyStr.contains t posixpath.sep = false →
  ∃ head, posixpath.split (x +:+ String posixpath.sep t) = (head, t).
Proof.
  intros Ht. unfold posixpath.split.
  destruct (split_cut (x +:+ String posixpath.sep t))
    as [(Hp & _)|(h & t' & Hp & Ht' & _ & ->)].
  { rewrite contains_app in Hp. simpl in Hp.
    by rewrite orb_true_r in Hp. }
  apply app_sep_inj in Hp as [_ <-]; [|done..]. by eexists.
Qed.

End MakedirsFacts.

(** * Where the new directories are *)

Section CreatedFacts.

Lemma on_path_mono (p : string) (fs fs' : filesystem) (loc : list string) :
  cwd fs' = cwd fs → nodes fs ⊆ nodes fs' →
  on_path p fs loc → on_path p fs' loc.
Proof.
  intros Hcwd Hsub (cs & Hne & Hcs & Hwalk). exists cs.
  split_and!; [done..|].
  rewrite (start_cwd fs) by done. by eapply walk_mono.
Qed.

Lemma walk_all_empty (ns : gmap (list string) inode) (cur l : list string)
    (cs : list string) :
  Forall (λ c, c = "") cs → kernel.walk ns cur cs = inr l → l = cur.
Proof.
  intros Hf. revert cur. induction Hf as [|c cs Hc _ IH]; intros cur; simpl.
  { by intros [= ->]. }
  subst c. destruct (ns !! cur) as [[|w]|]; try done.
  rewrite step_empty. apply IH.
Qed.

Lemma components_repeat (k : nat) :
  kernel.components (PyStr.repeat posixpath.sep k) = replicate (S k) "".
Proof.
  unfold kernel.components.
  rewrite <-(str_app_nil_r (PyStr.repeat _ _)), split_repeat. simpl.
  by rewrite replicate_cons_app.
Qed.

Lemma on_path_head (name head rest : string) (k : nat) (fs : filesystem)
    (loc : list string) :
  name = head +:+ PyStr.repeat posixpath.sep k +:+ rest →
  head ≠ "" →
  (0 < k)%nat ∨ head = PyStr.repeat posixpath.sep (String.length head) →
  on_path head fs loc → on_path name fs loc.
Proof.
  intros -> Hhead Hk (cs & Hne & Hcs & Hwalk). unfold on_path.
  rewrite start_app by done. destruct Hk as [Hk|Hall].
  - exists cs. split_and!; [done| |done]. destruct k as [|k]; [lia|].
    simpl. rewrite str_app_cons. unfold kernel.components in *.
    rewrite split_app_sep. by apply prefix_app_r.
  - destruct (String.length head) as [|m] eqn:Hm; [by destruct head|].
    rewrite Hall, components_repeat in Hcs. destruct Hcs as [cs' Hcs].
    assert (Forall (λ c, c = "") cs) as Hempty.
    { assert (Forall (λ c, c = "") (cs ++ cs')) as Hf.
      { rewrite <-Hcs. by apply Forall_replicate. }
      by apply Forall_app in Hf as [? _]. }
    pose proof (walk_all_empty _ _ _ _ Hempty Hwalk) as ->.
    destruct cs as [|c cs]; [done|].
    apply walk_cons_inv in Hwalk as [Hdir _].
    exists [""]. split_and!; [done| |by apply (walk_empties _ _ 1)].
    rewrite Hall at 1. unfold kernel.components.
    simpl PyStr.repeat. rewrite str_app_cons, split_cons_sep.
    by eexists.
Qed.

Lemma mkdir_on_path (p : string) (fs fs' : filesystem) (loc : list string) :
  kernel.mkdir p fs = inr fs' →
  nodes fs !! loc = None → is_Some (nodes fs' !! loc) →
  on_path p fs' loc.
Proof.
  intros (parents & name & parent & k & Hcs & Hn & Hdot & Hdots
        & Hwalk & Hparent & Hnew & ->)%mkdir_inv Hnone Hsome.
  simpl in Hsome. rewrite lookup_insert in Hsome.
  case_decide as Hloc; [subst loc|by rewrite Hnone in Hsome; destruct Hsome].
  exists (parents ++ [name]). split_and!.
  { by destruct parents. }
  { rewrite Hcs, (assoc_L (++)). by apply prefix_app_r. }
  simpl.
  assert (nodes fs ⊆ <[name :: parent := Dir true]> (nodes fs)) as Hsub.
  { by apply insert_subseteq. }
  rewrite walk_app. rewrite (start_cwd fs) by done.
  rewrite (walk_mono _ _ _ _ _ Hsub Hwalk), walk_cons_dir.
  2:{ eapply is_dir_mono; [done|]. by rewrite Hparent. }
  simpl. unfold kernel.step. rewrite decide_False by (intros [?|?]; done).
  by rewrite decide_False.
Qed.

Lemma makedirs_leaf_frame (name : string) (ok : bool) (fs : filesystem) :
  only_new_directories fs (final_fs (os.makedirs_leaf name ok fs)).
Proof.
  destruct (makedirs_leaf_cases name ok fs) as [->|(? & ? & _)];
    eauto using only_new_directories_refl, only_new_directories_mkdir.
Qed.

Lemma makedirs_leaf_created (name : string) (ok : bool) (fs : filesystem)
    (loc : list string) :
  nodes fs !! loc = None →
  is_Some (nodes (final_fs (os.makedirs_leaf name ok fs)) !! loc) →
  on_path name (final_fs (os.makedirs_leaf name ok fs)) loc.
Proof.
  destruct (makedirs_leaf_cases name ok fs) as [->|(_ & Hmk & _)].
  - intros -> [? ?]. done.
  - by apply mkdir_on_path.
Qed.

(** Every node [makedirs] adds lies on the path it was given. *)
Lemma makedirs_depth_created (n : nat) (name : string) (ok : bool)
    (fs : filesystem) (loc : list string) :
  nodes fs !! loc = None →
  is_Some (nodes (final_fs (os.makedirs_depth n name ok fs)) !! loc) →
  on_path name (final_fs (os.makedirs_depth n name ok fs)) loc.
Proof.
  revert name fs. induction n as [|n IH]; intros name fs Hnone.
  { simpl. rewrite Hnone. by intros [? ?]. }
  destruct (posixpath.split name) as [h1 t1] eqn:H1.
  destruct (if negb (PyStr.truthy t1) then posixpath.split h1 else (h1, t1))
    as [head tail] eqn:H2.
  rewrite (makedirs_depth_S _ _ _ _ _ _ _ _ H1 H2).
  destruct (PyStr.truthy head) eqn:Hhead; simpl;
    [|by apply makedirs_leaf_created].
  destruct (PyStr.truthy tail && negb _); simpl;
    [|by apply makedirs_leaf_created].
  apply truthy_true in Hhead.
  destruct (head_tail_spec _ _ _ _ _ H1 H2) as (_ & k & j & Hname & _ & Hk).
  specialize (Hk Hhead).
  pose proof (makedirs_depth_frame n head ok fs) as Hframe.
  specialize (IH head fs Hnone).
  set (fs1 := final_fs (os.makedirs_depth n head ok fs)) in *.
  assert (is_Some (nodes fs1 !! loc) → on_path name fs1 loc) as Hfs1.
  { intros Hsome. eapply on_path_head; eauto. }
  assert (is_Some (nodes (final_fs (os.makedirs_leaf name ok fs1)) !! loc) →
          on_path name (final_fs (os.makedirs_leaf name ok fs1)) loc)
    as Hleaf.
  { intros Hsome. destruct (nodes fs1 !! loc) as [i|] eqn:Hloc.
    - pose proof (makedirs_leaf_frame name ok fs1) as Hf.
      eapply on_path_mono; [apply Hf| |apply Hfs1; by eexists].
      by apply only_new_directories_subseteq.
    - by apply makedirs_leaf_created. }
  subst fs1.
  destruct (os.makedirs_depth n head ok fs) as [[] fs1|e fs1];
    simpl in Hfs1, Hleaf.
  - by destruct (String.eqb tail ".").
  - destruct (bool_decide _); [|done]. by destruct (String.eqb tail ".").
Qed.

End CreatedFacts.

(** * Facts about the loop over the directories *)

Section LoopFacts.

Lemma for_each_returned {A : Type} (x : A) (xs : list A)
    (body : A → IO unit) (fs fs' : filesystem) :
  for_each (x :: xs) body fs = Returned () fs' ↔
  ∃ fs1, body x fs = Returned () fs1
         ∧ for_each xs body fs1 = Returned () fs'.
Proof.
  rewrite for_each_cons. destruct (body x fs) as [[] fs1|e fs1]; split.
  - intros Hxs. by exists fs1.
  - by intros (? & [= <-] & ?).
  - done.
  - by intros (? & [=] & _).
Qed.

(** The loop raises exactly when one of its turns does, after the turns
    before it have returned. *)
Lemma for_each_raised {A : Type} (xs : list A) (body : A → IO unit)
    (fs fs' : filesystem) (e : exception) :
  for_each xs body fs = Raised e fs' ↔
  ∃ before x after fs0,
    xs = before ++ x :: after
    ∧ for_each before body fs = Returned () fs0
    ∧ body x fs0 = Raised e fs'.
Proof.
  revert fs. induction xs as [|x xs IH]; intros fs.
  { split; [done|]. by intros ([|??] & ? & ? & ? & ? & _). }
  rewrite for_each_cons. split.
  - destruct (body x fs) as [[] fs1|e1 fs1] eqn:Hx.
    + intros (before & y & after & fs0 & -> & Hbefore & Hy)%IH.
      exists (x :: before), y, after, fs0. split_and!; [done| |done].
      by rewrite for_each_cons, Hx.
    + intros [= -> ->]. by exists [], x, xs, fs.
  - intros ([|x' before] & y & after & fs0 & Hxs & Hbefore & Hy);
      injection Hxs as <- ->.
    + injection Hbefore as <-. by rewrite Hy.
    + rewrite for_each_cons in Hbefore.
      destruct (body x fs) as [[] fs1|e1 fs1]; [|done].
      apply IH. by exists before, y, after, fs0.
Qed.

Lemma for_each_makedirs_rel (R : filesystem → filesystem → Prop) :
  (∀ fs, R fs fs) →
  (∀ fs1 fs2 fs3, R fs1 fs2 → R fs2 fs3 → R fs1 fs3) →
  (∀ p fs fs', PyStr.contains p NUL = false →
     kernel.mkdir p fs = inr fs' → R fs fs') →
  ∀ dirs fs,
    R fs (final_fs (for_each dirs (λ _dir, os.makedirs _dir true) fs)).
Proof.
  intros Hrefl Htrans Hmkdir. induction dirs as [|dir dirs IH]; intros fs.
  { apply Hrefl. }
  rewrite for_each_cons.
  pose proof (makedirs_depth_rel R Hrefl Htrans Hmkdir
                (S (String.length dir)) dir true fs) as Hdir.
  fold (os.makedirs dir true) in Hdir.
  destruct (os.makedirs dir true fs) as [[] fs1|e fs1]; [|done].
  eapply Htrans; [apply Hdir|apply IH].
Qed.

Lemma for_each_makedirs_frame (dirs : list string) (fs : filesystem) :
  only_new_directories fs
    (final_fs (for_each dirs (λ _dir, os.makedirs _dir true) fs)).
Proof.
  apply for_each_makedirs_rel;
    eauto using only_new_directories_refl, only_new_directories_trans,
      only_new_directories_mkdir.
Qed.

Lemma for_each_makedirs_created (dirs : list string) (fs : filesystem)
    (loc : list string) :
  nodes fs !! loc = None →
  is_Some (nodes (final_fs
    (for_each dirs (λ _dir, os.makedirs _dir true) fs)) !! loc) →
  ∃ dir, dir ∈ dirs
    ∧ on_path dir
        (final_fs (for_each dirs (λ _dir, os.makedirs _dir true) fs)) loc.
Proof.
  revert fs. induction dirs as [|dir dirs IH]; intros fs Hnone.
  { simpl. rewrite Hnone. by intros [? ?]. }
  rewrite for_each_cons.
  pose proof (makedirs_depth_created (S (String.length dir)) dir true fs
                loc Hnone) as Hdir.
  fold (os.makedirs dir true) in Hdir.
  destruct (os.makedirs dir true fs) as [[] fs1|e fs1]; simpl in Hdir.
  2:{ intros Hsome. exists dir. split; [left|by apply Hdir]. }
  intros Hsome.
  pose proof (for_each_makedirs_frame dirs fs1) as Hframe.
  destruct (nodes fs1 !! loc) as [i|] eqn:Hloc.
  - exists dir. split; [left|].
    eapply on_path_mono; [apply Hframe| |apply Hdir; by eexists].
    by apply only_new_directories_subseteq.
  - destruct (IH fs1 Hloc Hsome) as (dir' & Hin & Hpath).
    exists dir'. split; [by right|done].
Qed.

Lemma resolve_final (s : string) (d : Z) (fs : filesystem) :
  final_fs (resolve s d fs)
    = final_fs (for_each (directories s) (λ _dir, os.makedirs _dir true) fs).
Proof.
  unfold resolve, mbind, IO_bind, mret, IO_ret.
  by destruct (for_each _ _ fs) as [[] fs1|e fs1].
Qed.

(** The four turns of the loop, when the module returns. *)
Lemma directories_returned (s : string) (fs fs' : filesystem) :
  for_each (directories s) (λ _dir, os.makedirs _dir true) fs
    = Returned () fs' ↔
  ∃ fs1 fs2 fs3,
    os.makedirs (working_dir s) true fs = Returned () fs1
    ∧ os.makedirs (media_dir s) true fs1 = Returned () fs2
    ∧ os.makedirs output_dir true fs2 = Returned () fs3
    ∧ os.makedirs (mosaic_dir s) true fs3 = Returned () fs'.
Proof.
  unfold directories. rewrite for_each_returned.
  setoid_rewrite for_each_returned. setoid_rewrite for_each_returned.
  setoid_rewrite for_each_returned. simpl. split.
  - intros (fs1 & ? & fs2 & ? & fs3 & ? & fs4 & ? & [= <-]).
    by exists fs1, fs2, fs3.
  - intros (fs1 & fs2 & fs3 & ? & ? & ? & ?).
    exists fs1. split; [done|]. exists fs2. split; [done|].
    exists fs3. split; [done|]. by exists fs'.
Qed.

Lemma a_b_directories :
  for_each (directories "a/b") (λ _dir, os.makedirs _dir true) fresh_fs
    = Returned () a_b_fs.
Proof. vm_compute. reflexivity. Qed.

Lemma ouput_file_directories :
  for_each (directories "dankmemes") (λ _dir, os.makedirs _dir true)
    ouput_file_fs = Raised FileExistsError ouput_file_after_fs.
Proof. vm_compute. reflexivity. Qed.

Lemma readonly_directories :
  for_each (directories "dankmemes") (λ _dir, os.makedirs _dir true)
    readonly_fs = Raised PermissionError readonly_fs.
Proof. vm_compute. reflexivity. Qed.

Lemma fresh_fs_all_writable : all_writable fresh_fs.
Proof.
  intros loc w. unfold fresh_fs. simpl.
  rewrite !lookup_insert, lookup_singleton.
  repeat case_decide; congruence.
Qed.

Lemma ouput_file_fs_all_writable : all_writable ouput_file_fs.
Proof.
  intros loc w. unfold ouput_file_fs. simpl. rewrite lookup_insert.
  case_decide; [done|]. apply fresh_fs_all_writable.
Qed.

End LoopFacts.

(** * Facts about the module body *)

Section ModuleFacts.

Lemma working_dir_join (s b : string) :
  working_dir s +:+ b = ("reddit_data/" +:+ s) +:+ String posixpath.sep b.
Proof. unfold working_dir. by rewrite !str_app_assoc. Qed.

(** A name that ends in a separator and a plain last component is a
    directory once [makedirs] has returned. *)
Lemma makedirs_returned_sep (x t : string) (fs fs' : filesystem) :
  PyStr.contains t posixpath.sep = false → t ≠ "" → t ≠ "." →
  os.makedirs (x +:+ String posixpath.sep t) true fs = Returned () fs' →
  genericpath.isdir (x +:+ String posixpath.sep t) fs' = true.
Proof.
  intros Ht Hne Hdot. destruct (posixpath_split_snd x t Ht) as [head H1].
  eapply makedirs_depth_returned; [apply H1| |done].
  by destruct t.
Qed.

Lemma output_dir_returned (fs fs' : filesystem) :
  os.makedirs output_dir true fs = Returned () fs' →
  genericpath.isdir output_dir fs' = true.
Proof.
  by apply (makedirs_depth_returned _ output_dir "ouput" "" "" "ouput").
Qed.

Lemma makedirs_returned_frame (name : string) (fs fs' : filesystem) :
  os.makedirs name true fs = Returned () fs' → only_new_directories fs fs'.
Proof.
  intros Hret.
  pose proof (makedirs_depth_frame (S (String.length name)) name true fs)
    as Hframe.
  fold (os.makedirs name true) in Hframe. by rewrite Hret in Hframe.
Qed.

Lemma isdir_frame (p : string) (fs fs' : filesystem) :
  only_new_directories fs fs' →
  genericpath.isdir p fs = true → genericpath.isdir p fs' = true.
Proof.
  intros Hframe. apply isdir_mono; [apply Hframe|].
  by apply only_new_directories_subseteq.
Qed.

(** When the loop has returned, its four directories exist. *)
Lemma directories_isdir (s : string) (fs fs' : filesystem) :
  for_each (directories s) (λ _dir, os.makedirs _dir true) fs
    = Returned () fs' →
  ∀ dir, dir ∈ directories s → genericpath.isdir dir fs' = true.
Proof.
  intros (fs1 & fs2 & fs3 & Hw & Hmedia & Hout & Hmosaic)%directories_returned.
  pose proof (makedirs_returned_frame _ _ _ Hout) as Hf3.
  pose proof (makedirs_returned_frame _ _ _ Hmosaic) as Hf4.
  rewrite media_dir_eq, working_dir_join in Hmedia.
  rewrite mosaic_dir_eq, working_dir_join in Hmosaic.
  apply makedirs_returned_sep in Hmedia; [|done..].
  apply makedirs_returned_sep in Hmosaic; [|done..].
  apply output_dir_returned in Hout.
  assert (genericpath.isdir (media_dir s) fs' = true) as Hmedia'.
  { rewrite media_dir_eq, working_dir_join. eauto using isdir_frame. }
  intros dir Hdir. unfold directories in Hdir.
  rewrite !elem_of_cons, elem_of_nil in Hdir.
  destruct Hdir as [->|[->|[->|[->|[]]]]].
  - rewrite media_dir_eq, working_dir_join in Hmedia'.
    apply isdir_locate in Hmedia' as (l & Hl & _).
    rewrite working_dir_sep. by eapply isdir_sep_prefix.
  - done.
  - eauto using isdir_frame.
  - by rewrite mosaic_dir_eq, working_dir_join.
Qed.

(** When its four directories exist, the loop returns and changes
    nothing. *)
Lemma directories_noop (s : string) (fs : filesystem) :
  (∀ dir, dir ∈ directories s → genericpath.isdir dir fs = true) →
  for_each (directories s) (λ _dir, os.makedirs _dir true) fs
    = Returned () fs.
Proof.
  intros Hdirs. apply directories_returned. exists fs, fs, fs.
  unfold os.makedirs.
  split_and!; apply makedirs_depth_isdir, Hdirs; unfold directories;
    rewrite !elem_of_cons; auto.
Qed.

Lemma image_lookup_file_eq (s : string) :
  image_lookup_file s = working_dir s +:+ "media.json.gz".
Proof. by apply join_working_dir. Qed.

Lemma logits_file_eq (s : string) :
  logits_file s = working_dir s +:+ "image_features.csv.gz".
Proof. by apply join_working_dir. Qed.

Lemma knn_file_eq (s : string) : knn_file s = working_dir s +:+ "knn.pkl".
Proof. by apply join_working_dir. Qed.



End ModuleFacts.

(** * The nodes the file paths name *)

Section FileFacts.

Lemma walk_result (ns : gmap (list string) inode) (cur loc : list string)
    (cs : list string) :
  kernel.walk ns cur cs = inr loc → loc = foldl kernel.step cur cs.
Proof.
  revert cur. induction cs as [|c cs IH]; intros cur; simpl.
  { by intros [= ->]. }
  destruct (ns !! cur) as [[|w]|]; try done. apply IH.
Qed.

Lemma step_plain (cur : list string) (c : string) :
  c ≠ "" → c ≠ "." → c ≠ ".." → kernel.step cur c = c :: cur.
Proof.
  intros Hne Hdot Hdots. unfold kernel.step.
  rewrite decide_False by (intros [?|?]; done). by rewrite decide_False.
Qed.

Lemma components_under_working_dir (s t : string) :
  PyStr.contains s posixpath.sep = false →
  PyStr.contains t posixpath.sep = false →
  kernel.components (working_dir s +:+ t) = ["reddit_data"; s; t].
Proof.
  intros Hs Ht.
  assert (working_dir s +:+ t
          = "reddit_data" +:+ String posixpath.sep
              (s +:+ String posixpath.sep t)) as ->.
  { unfold working_dir. by rewrite !str_app_assoc. }
  unfold kernel.components. rewrite split_app_sep, split_app_sep.
  by rewrite (split_no_sep s), (split_no_sep t).
Qed.

Lemma start_working_dir (s t : string) (fs : filesystem) :
  kernel.start fs (working_dir s +:+ t) = cwd fs.
Proof. unfold working_dir. by rewrite !str_app_assoc. Qed.

(** Following components that are ordinary names. *)
Ltac plain_steps :=
  repeat match goal with
         | |- context [kernel.step ?l ?c] => rewrite (step_plain l c) by done
         end.

Lemma on_path_under_working_dir (s t : string) (fs : filesystem)
    (loc : list string) :
  plain_segment s → PyStr.contains t posixpath.sep = false →
  on_path (working_dir s +:+ t) fs loc →
  loc = "reddit_data" :: cwd fs
  ∨ loc = s :: "reddit_data" :: cwd fs
  ∨ loc = kernel.step (s :: "reddit_data" :: cwd fs) t.
Proof.
  intros (Hne & Hdot & Hdots & Hsep) Ht (cs & Hcs & [rest Hpre] & Hwalk).
  apply walk_result in Hwalk as ->.
  rewrite components_under_working_dir in Hpre by done.
  rewrite start_working_dir.
  destruct cs as [|c1 [|c2 [|c3 [|c4 cs]]]]; simplify_eq/=;
    plain_steps; auto.
Qed.

(** The nodes on the paths of the four directories, for an ordinary
    identifier. *)
Lemma on_path_directories (s dir : string) (fs : filesystem)
    (loc : list string) :
  plain_segment s → dir ∈ directories s → on_path dir fs loc →
  loc ∈ [ "reddit_data" :: cwd fs;
          s :: "reddit_data" :: cwd fs;
          "media" :: s :: "reddit_data" :: cwd fs;
          "mosaics" :: s :: "reddit_data" :: cwd fs;
          "ouput" :: cwd fs ].
Proof.
  intros Hs Hdir Hpath. unfold directories in Hdir.
  rewrite !elem_of_cons, elem_of_nil in Hdir. rewrite !elem_of_cons.
  destruct Hdir as [->|[->|[->|[->|[]]]]].
  - rewrite <-(str_app_nil_r (working_dir s)) in Hpath.
    apply on_path_under_working_dir in Hpath as [->|[->| ->]];
      [auto 10..|done|done].
  - rewrite media_dir_eq in Hpath.
    apply on_path_under_working_dir in Hpath as [->|[->| ->]];
      [auto 10..|done|done].
  - destruct Hpath as (cs & Hcs & [rest Hpre] & Hwalk).
    apply walk_result in Hwalk as ->.
    change (kernel.components output_dir) with ["ouput"; ""] in Hpre.
    change (kernel.start fs output_dir) with (cwd fs).
    destruct cs as [|c1 [|c2 [|c3 cs]]]; simplify_eq/=;
      rewrite (step_plain _ "ouput") by done; auto 10.
  - rewrite mosaic_dir_eq in Hpath.
    apply on_path_under_working_dir in Hpath as [->|[->| ->]];
      [auto 10..|done|done].
Qed.



End FileFacts.

(** * Facts about failures of the module body *)

Section FailureFacts.

(** A [PermissionError] of [makedirs] is the one [mkdir] gave for the
    name or for a leading part of it. *)
Lemma makedirs_depth_refused (n : nat) (name : string) (ok : bool)
    (fs fs' : filesystem) :
  os.makedirs_depth n name ok fs = Raised PermissionError fs' →
  ∃ p rest, name = p +:+ rest
            ∧ kernel.mkdir p fs' = inl PermissionError.
Proof.
  assert (∀ fs, os.makedirs_leaf name ok fs = Raised PermissionError fs' →
            ∃ p rest, name = p +:+ rest
                      ∧ kernel.mkdir p fs' = inl PermissionError) as Hleaf.
  { intros fs1 [-> [[? _]|[Hmk _]]]%makedirs_leaf_raised; [done|].
    exists name, "". by rewrite str_app_nil_r. }
  revert name fs Hleaf. induction n as [|n IH]; intros name fs Hleaf; [done|].
  destruct (posixpath.split name) as [h1 t1] eqn:H1.
  destruct (if negb (PyStr.truthy t1) then posixpath.split h1 else (h1, t1))
    as [head tail] eqn:H2.
  rewrite (makedirs_depth_S _ _ _ _ _ _ _ _ H1 H2).
  destruct (_ && negb _); [|by apply Hleaf].
  destruct (os.makedirs_depth n head ok fs) as [[] fs1|e fs1] eqn:Hhead.
  - destruct (String.eqb tail "."); [done|by apply Hleaf].
  - case_bool_decide as He.
    + destruct (String.eqb tail "."); [done|by apply Hleaf].
    + intros [= -> ->].
      apply IH in Hhead as (p & rest & Hp & Hmk).
      * destruct (head_tail_spec _ _ _ _ _ H1 H2) as (_ & k & j & -> & _).
        exists p. eexists. split; [|done].
        rewrite Hp, !str_app_assoc. reflexivity.
      * intros fs2 [-> [[? _]|[Hmk _]]]%makedirs_leaf_raised; [done|].
        exists head, "". by rewrite str_app_nil_r.
Qed.

Lemma directories_refused (s : string) (fs fs' : filesystem) :
  for_each (directories s) (λ _dir, os.makedirs _dir true) fs
    = Raised PermissionError fs' →
  ∃ dir p rest, dir ∈ directories s ∧ dir = p +:+ rest
                ∧ kernel.mkdir p fs' = inl PermissionError.
Proof.
  intros (before & dir & after & fs0 & Hdirs & _ & Hdir)%for_each_raised.
  apply makedirs_depth_refused in Hdir as (p & rest & Hp & Hmk).
  exists dir, p, rest. split_and!; [|done..].
  rewrite Hdirs. apply elem_of_app. right. left.
Qed.


End FailureFacts.

(** * The properties of the specification *)

(** Reading a field of [bindings]. *)
Ltac field_of_bindings :=
  cbn [bindings Config.working_dir Config.media_dir Config.mosaic_dir
       Config.output_dir Config.image_lookup_file Config.logits_file
       Config.knn_file Config.file_animation Config.cols_conv_feats].

Example str_0 : PyStr.str 0 = "0".
Proof. reflexivity. Qed.

Example str_2047 : PyStr.str 2047 = "2047".
Proof. reflexivity. Qed.

Example cols_conv_feats_4 :
  cols_conv_feats 4 = ["conv_0"; "conv_1"; "conv_2"; "conv_3"].
Proof. reflexivity. Qed.

Example skip_hash_membership :
  "NOHASH" ∈ skip_hash ∧ "nan" ∈ skip_hash ∧ "somehash123" ∉ skip_hash.
Proof.
  unfold skip_hash. repeat split.
  - by left.
  - by do 2 right; left.
  - rewrite !elem_of_cons, elem_of_nil. intros [H|[H|[H|[]]]]; discriminate H.
Qed.

(** C1. For every non-empty identifier [s], the [working_dir] that
    [resolve s 2048] produces is the string ["reddit_data/" + s + "/"]. *)
Theorem working_dir_of_identifier (s : string) (fs fs' : filesystem)
    (c : Config.t) :
  s ≠ "" →
  resolve s 2048 fs = Returned c fs' →
  Config.working_dir c = "reddit_data/" +:+ s +:+ "/".
Proof. intros _ [-> _]%resolve_returned. reflexivity. Qed.

Lemma working_dir_of_identifier_witness :
  "dankmemes" ≠ ""
  ∧ resolve "dankmemes" 2048 fresh_fs
    = Returned (bindings "dankmemes" 2048) dankmemes_fs
  ∧ Config.working_dir (bindings "dankmemes" 2048)
    = "reddit_data/dankmemes/".
Proof.
  split; [discriminate|]. split; [apply resolve_dankmemes|].
  apply (working_dir_of_identifier "dankmemes" fresh_fs dankmemes_fs);
    [discriminate|apply resolve_dankmemes].
Defined.

(** C2. [file_animation] is the path join of [output_dir] with a component
    that begins with a separator; the join discards [output_dir] and gives
    the absolute path ["/doppler_mosaic.mp4"], whatever the identifier. *)
Theorem file_animation_at_root (s : string) (d : Z) (fs fs' : filesystem)
    (c : Config.t) :
  resolve s d fs = Returned c fs' →
  Config.file_animation c
    = posixpath.join (Config.output_dir c) ["/doppler_mosaic.mp4"]
  ∧ Config.file_animation c = "/doppler_mosaic.mp4"
  ∧ PyStr.startswith (Config.file_animation c) "/" = true
  ∧ PyStr.startswith (Config.file_animation c) (Config.output_dir c) = false.
Proof. intros [-> _]%resolve_returned. by split_and!. Qed.

Lemma file_animation_at_root_witness :
  resolve "dankmemes" 2048 fresh_fs
    = Returned (bindings "dankmemes" 2048) dankmemes_fs
  ∧ Config.file_animation (bindings "dankmemes" 2048)
    = "/doppler_mosaic.mp4".
Proof.
  split; [apply resolve_dankmemes|].
  apply (file_animation_at_root "dankmemes" 2048 fresh_fs dankmemes_fs).
  apply resolve_dankmemes.
Defined.

(** C3. For every identifier and every positive [d], the column names that
    [resolve s d] produces are [d] in number and are ["conv_0"],
    ["conv_1"], ..., ["conv_{d-1}"] in this order; the module's own
    [n_dimensions] is 2048. *)
Theorem feature_column_names (s : string) (d : Z) (fs fs' : filesystem)
    (c : Config.t) :
  0 < d →
  resolve s d fs = Returned c fs' →
  Z.of_nat (length (Config.cols_conv_feats c)) = d
  ∧ (∀ i, 0 ≤ i < d →
       Config.cols_conv_feats c !! Z.to_nat i
         = Some ("conv_" +:+ PyStr.str i))
  ∧ n_dimensions = 2048.
Proof.
  intros Hd [-> _]%resolve_returned. field_of_bindings. split_and!.
  - apply cols_conv_feats_length. lia.
  - apply cols_conv_feats_lookup.
  - reflexivity.
Qed.

Lemma feature_column_names_witness :
  0 < 4
  ∧ resolve "dankmemes" 4 fresh_fs
    = Returned (bindings "dankmemes" 4) dankmemes_fs
  ∧ Z.of_nat (length (Config.cols_conv_feats (bindings "dankmemes" 4))) = 4
  ∧ Config.cols_conv_feats (bindings "dankmemes" 4) !! Z.to_nat 3
    = Some "conv_3".
Proof.
  split; [lia|]. split; [apply resolve_dankmemes|].
  destruct (feature_column_names "dankmemes" 4 fresh_fs dankmemes_fs
              (bindings "dankmemes" 4)) as (Hlen & Hnth & _).
  - lia.
  - apply resolve_dankmemes.
  - split; [exact Hlen|]. apply (Hnth 3). lia.
Defined.

Lemma resolve_a_b (d : Z) :
  resolve "a/b" d fresh_fs = Returned (bindings "a/b" d) a_b_fs.
Proof. apply resolve_returned. split; [done|apply a_b_directories]. Qed.

Lemma resolve_ouput_file (d : Z) :
  resolve "dankmemes" d ouput_file_fs
    = Raised FileExistsError ouput_file_after_fs.
Proof. apply resolve_raised, ouput_file_directories. Qed.

Lemma resolve_readonly (d : Z) :
  resolve "dankmemes" d readonly_fs = Raised PermissionError readonly_fs.
Proof. apply resolve_raised, readonly_directories. Qed.

(** C4, as the code has it. [resolve] does not look at the identifier and
    has no [InvalidPath] failure.  It raises exactly when one of the four
    [os.makedirs] calls of its loop raises, after the calls before it have
    returned, and it raises that call's exception, whichever it is.  It
    raises [PermissionError] only when the file system refuses, with that
    error, the [mkdir] of one of the four directories or of a leading part
    of its path. *)
Theorem resolve_failure_modes (s : string) (d : Z) (fs fs' : filesystem)
    (e : exception) :
  (resolve s d fs = Raised e fs' ↔
   ∃ before dir after fs0,
     directories s = before ++ dir :: after
     ∧ for_each before (λ _dir, os.makedirs _dir true) fs = Returned () fs0
     ∧ os.makedirs dir true fs0 = Raised e fs')
  ∧ (resolve s d fs = Raised PermissionError fs' →
     ∃ dir p rest, dir ∈ directories s ∧ dir = p +:+ rest
                   ∧ kernel.mkdir p fs' = inl PermissionError).
Proof.
  split.
  - rewrite resolve_raised. apply for_each_raised.
  - intros Hraised%resolve_raised. by apply (directories_refused s fs).
Qed.

Lemma resolve_failure_modes_witness :
  resolve "dankmemes" 2048 readonly_fs = Raised PermissionError readonly_fs
  ∧ ∃ dir p rest, dir ∈ directories "dankmemes" ∧ dir = p +:+ rest
                  ∧ kernel.mkdir p readonly_fs = inl PermissionError.
Proof.
  split; [apply resolve_readonly|].
  apply (resolve_failure_modes "dankmemes" 2048 readonly_fs readonly_fs
           PermissionError), resolve_readonly.
Defined.

(** C4, as the specification states it, fails: the identifier ["a/b"]
    contains the separator, which no path segment may contain, and
    [resolve] returns for it; and for the identifier ["dankmemes"], in a
    file system whose directories are all writable and where [ouput] is a
    regular file, [resolve] raises [FileExistsError], which is neither of
    the two failures the specification allows. *)
Lemma resolve_accepts_separator :
  PyStr.contains "a/b" posixpath.sep = true
  ∧ resolve "a/b" 2048 fresh_fs = Returned (bindings "a/b" 2048) a_b_fs
  ∧ PyStr.contains "dankmemes" posixpath.sep = false
  ∧ PyStr.contains "dankmemes" NUL = false
  ∧ all_writable ouput_file_fs
  ∧ resolve "dankmemes" 2048 ouput_file_fs
    = Raised FileExistsError ouput_file_after_fs.
Proof.
  split_and!; [reflexivity|apply resolve_a_b|reflexivity|reflexivity| |].
  - apply ouput_file_fs_all_writable.
  - apply resolve_ouput_file.
Qed.

(** C5. When [resolve] has returned, calling it again with the same
    identifier and dimensions returns too, with the same bindings, and
    leaves the file system as the first call left it. *)
Theorem resolve_idempotent (s : string) (d : Z) (fs fs' : filesystem)
    (c : Config.t) :
  resolve s d fs = Returned c fs' →
  resolve s d fs' = Returned c fs'.
Proof.
  intros [-> Hloop]%resolve_returned. apply resolve_returned.
  split; [reflexivity|]. apply directories_noop.
  by apply (directories_isdir s fs).
Qed.

Lemma resolve_idempotent_witness :
  resolve "dankmemes" 2048 fresh_fs
    = Returned (bindings "dankmemes" 2048) dankmemes_fs
  ∧ resolve "dankmemes" 2048 dankmemes_fs
    = Returned (bindings "dankmemes" 2048) dankmemes_fs.
Proof.
  split; [apply resolve_dankmemes|].
  apply (resolve_idempotent "dankmemes" 2048 fresh_fs).
  apply resolve_dankmemes.
Defined.





(** C7. Whatever the identifier and the dimensions, the [output_dir] that
    [resolve] produces is ["ouput/"]; two runs give the same one. *)
Theorem output_dir_constant (s1 s2 : string) (d1 d2 : Z)
    (fs1 fs1' fs2 fs2' : filesystem) (c1 c2 : Config.t) :
  resolve s1 d1 fs1 = Returned c1 fs1' →
  resolve s2 d2 fs2 = Returned c2 fs2' →
  Config.output_dir c1 = "ouput/"
  ∧ Config.output_dir c2 = Config.output_dir c1.
Proof.
  intros [-> _]%resolve_returned [-> _]%resolve_returned. by split.
Qed.

Lemma output_dir_constant_witness :
  resolve "dankmemes" 2048 fresh_fs
    = Returned (bindings "dankmemes" 2048) dankmemes_fs
  ∧ resolve "a/b" 4 fresh_fs = Returned (bindings "a/b" 4) a_b_fs
  ∧ Config.output_dir (bindings "dankmemes" 2048) = "ouput/"
  ∧ Config.output_dir (bindings "a/b" 4)
    = Config.output_dir (bindings "dankmemes" 2048).
Proof.
  split; [apply resolve_dankmemes|]. split; [apply resolve_a_b|].
  apply (output_dir_constant "dankmemes" "a/b" 2048 4 fresh_fs dankmemes_fs
           fresh_fs a_b_fs).
  - apply resolve_dankmemes.
  - apply resolve_a_b.
Defined.

(** C8. The [media_dir] and the [mosaic_dir] that [resolve] produces are
    under its [working_dir]: [working_dir] ends with the separator and
    starts both strings, and the components before its end start both
    lists of components. *)
Theorem media_mosaic_under_working_dir (s : string) (d : Z)
    (fs fs' : filesystem) (c : Config.t) :
  resolve s d fs = Returned c fs' →
  PyStr.endswith (Config.working_dir c) "/" = true
  ∧ PyStr.startswith (Config.media_dir c) (Config.working_dir c) = true
  ∧ PyStr.startswith (Config.mosaic_dir c) (Config.working_dir c) = true
  ∧ ∃ cs, kernel.components (Config.working_dir c) = cs ++ [""]
          ∧ kernel.components (Config.media_dir c) = cs ++ ["media"]
          ∧ kernel.components (Config.mosaic_dir c) = cs ++ ["mosaics"].
Proof.
  intros [-> _]%resolve_returned. field_of_bindings. split_and!.
  - rewrite working_dir_sep. apply endswith_app.
  - rewrite media_dir_eq. apply startswith_app.
  - rewrite mosaic_dir_eq. apply startswith_app.
  - exists (kernel.components ("reddit_data/" +:+ s)).
    rewrite media_dir_eq, mosaic_dir_eq, !working_dir_join, working_dir_sep.
    unfold kernel.components. by rewrite !split_app_sep.
Qed.

Lemma media_mosaic_under_working_dir_witness :
  resolve "dankmemes" 2048 fresh_fs
    = Returned (bindings "dankmemes" 2048) dankmemes_fs
  ∧ PyStr.startswith (Config.media_dir (bindings "dankmemes" 2048))
      (Config.working_dir (bindings "dankmemes" 2048)) = true.
Proof.
  split; [apply resolve_dankmemes|].
  apply (media_mosaic_under_working_dir "dankmemes" 2048 fresh_fs
           dankmemes_fs (bindings "dankmemes" 2048)).
  apply resolve_dankmemes.
Defined.

(** C9. Since [working_dir] ends with the separator, each of the five
    paths joined to it is [working_dir] followed by the joined component,
    with no separator added: [media_dir] is
    ["reddit_data/" + s + "/media"], [image_lookup_file] is
    [working_dir + "media.json.gz"], and so on. *)
Theorem join_is_concatenation (s : string) (d : Z) (fs fs' : filesystem)
    (c : Config.t) :
  resolve s d fs = Returned c fs' →
  PyStr.endswith (Config.working_dir c) "/" = true
  ∧ Config.media_dir c = posixpath.join (Config.working_dir c) ["media"]
  ∧ Config.media_dir c = Config.working_dir c +:+ "media"
  ∧ Config.mosaic_dir c = Config.working_dir c +:+ "mosaics"
  ∧ Config.image_lookup_file c = Config.working_dir c +:+ "media.json.gz"
  ∧ Config.logits_file c = Config.working_dir c +:+ "image_features.csv.gz"
  ∧ Config.knn_file c = Config.working_dir c +:+ "knn.pkl"
  ∧ Config.media_dir c = "reddit_data/" +:+ s +:+ "/media".
Proof.
  intros [-> _]%resolve_returned. field_of_bindings. split_and!.
  - rewrite working_dir_sep. apply endswith_app.
  - reflexivity.
  - apply media_dir_eq.
  - apply mosaic_dir_eq.
  - apply image_lookup_file_eq.
  - apply logits_file_eq.
  - apply knn_file_eq.
  - rewrite media_dir_eq. unfold working_dir. by rewrite !str_app_assoc.
Qed.

Lemma join_is_concatenation_witness :
  resolve "dankmemes" 2048 fresh_fs
    = Returned (bindings "dankmemes" 2048) dankmemes_fs
  ∧ Config.media_dir (bindings "dankmemes" 2048)
    = "reddit_data/dankmemes/media".
Proof.
  split; [apply resolve_dankmemes|].
  apply (join_is_concatenation "dankmemes" 2048 fresh_fs dankmemes_fs
           (bindings "dankmemes" 2048)).
  apply resolve_dankmemes.
Defined.

(** C10. For every positive [d], the column names that [resolve s d]
    produces are pairwise distinct: no name occurs at two positions. *)
Theorem column_names_pairwise_distinct (s : string) (d : Z)
    (fs fs' : filesystem) (c : Config.t) :
  0 < d →
  resolve s d fs = Returned c fs' →
  NoDup (Config.cols_conv_feats c)
  ∧ ∀ i j name,
      Config.cols_conv_feats c !! i = Some name →
      Config.cols_conv_feats c !! j = Some name → i = j.
Proof.
  intros _ [-> _]%resolve_returned. field_of_bindings.
  pose proof (cols_conv_feats_NoDup d) as Hnodup.
  split; [exact Hnodup|]. intros i j name. by apply NoDup_lookup.
Qed.

Lemma column_names_pairwise_distinct_witness :
  0 < 4
  ∧ resolve "dankmemes" 4 fresh_fs
    = Returned (bindings "dankmemes" 4) dankmemes_fs
  ∧ NoDup (Config.cols_conv_feats (bindings "dankmemes" 4)).
Proof.
  split; [lia|]. split; [apply resolve_dankmemes|].
  apply (column_names_pairwise_distinct "dankmemes" 4 fresh_fs dankmemes_fs
           (bindings "dankmemes" 4)); [lia|apply resolve_dankmemes].
Defined.

(** * Further facts about joining and splitting *)

Section JoinFacts.

Lemma join_step_absolute (path b : string) :
  PyStr.startswith b "/" = true → posixpath.join_step path b = b.
Proof. intros Hb. unfold posixpath.join_step, posixpath.sep. by rewrite Hb. Qed.

Lemma join_step_endswith (path b : string) :
  PyStr.endswith (posixpath.join_step path b) b = true.
Proof.
  unfold posixpath.join_step.
  destruct (PyStr.startswith b _); [apply endswith_refl|].
  destruct (_ || _); [apply endswith_app|].
  rewrite <-str_app_assoc. apply endswith_app.
Qed.

Lemma endswith_inv (s suf : string) :
  PyStr.endswith s suf = true → ∃ x, s = x +:+ suf.
Proof.
  induction s as [|a s IH]; rewrite endswith_eq.
  - destruct (String.eqb_spec "" suf) as [<-|]; [|done]. by exists "".
  - destruct (String.eqb_spec (String a s) suf) as [<-|]; [by exists ""|].
    intros [x ->]%IH. by exists (String a x).
Qed.

Lemma posixpath_split_no_sep (p : string) :
  PyStr.contains p posixpath.sep = false → posixpath.split p = ("", p).
Proof.
  intros Hp. unfold posixpath.split.
  destruct (split_cut p) as [(_ & -> & ->)|(h & t & -> & _)]; [done|].
  rewrite contains_app in Hp. simpl in Hp. by rewrite orb_true_r in Hp.
Qed.

Lemma startswith_no_sep (b : string) :
  PyStr.contains b posixpath.sep = false → PyStr.startswith b "/" = false.
Proof.
  destruct b as [|a b]; [done|]. cbn [PyStr.contains]. intros Hb.
  unfold PyStr.startswith. cbn [String.prefix].
  destruct (ascii_dec "/" a) as [<-|]; [|done].
  by rewrite Ascii.eqb_refl in Hb.
Qed.

Lemma split_join_snd (a b : string) :
  PyStr.contains b posixpath.sep = false →
  (posixpath.split (posixpath.join a [b])).2 = b.
Proof.
  intros Hb. unfold posixpath.join, posixpath.join_step. cbn [foldl].
  unfold posixpath.sep at 1. rewrite (startswith_no_sep b Hb).
  destruct a as [|c a]; cbn [PyStr.truthy negb orb].
  { rewrite str_app_nil_l. by rewrite posixpath_split_no_sep. }
  destruct (PyStr.endswith _ _) eqn:Hend.
  - apply endswith_inv in Hend as [x ->]. rewrite str_app_assoc.
    change (String posixpath.sep "" +:+ b) with (String posixpath.sep b).
    by destruct (posixpath_split_snd x b Hb) as [head ->].
  - change (String posixpath.sep "" +:+ b) with (String posixpath.sep b).
    by destruct (posixpath_split_snd (String c a) b Hb) as [head ->].
Qed.

Lemma str_app_inj_r (s s' t : string) : s +:+ t = s' +:+ t → s = s'.
Proof.
  revert s'. induction s as [|a s IH]; intros [|a' s'];
    rewrite ?str_app_nil_l, ?str_app_cons.
  - done.
  - intros H. apply (f_equal String.length) in H.
    simpl in H. rewrite str_app_length in H. lia.
  - intros H. apply (f_equal String.length) in H.
    simpl in H. rewrite str_app_length in H. lia.
  - intros [= -> ?%IH]. by f_equal.
Qed.

Lemma working_dir_inj (s1 s2 : string) :
  working_dir s1 = working_dir s2 → s1 = s2.
Proof.
  rewrite !working_dir_sep. intros H%str_app_inj_r.
  by apply (inj (String.app "reddit_data/")) in H.
Qed.

End JoinFacts.

(** * More facts about the module body *)

Section MoreModuleFacts.

(** [mkdir] on a path that names a node fails with [FileExistsError]. *)
Lemma mkdir_exists (p : string) (fs : filesystem) (l : list string) :
  locate p fs = Some l → is_Some (nodes fs !! l) →
  kernel.mkdir p fs = inl FileExistsError.
Proof.
  intros (Hp%truthy_true & _ & Hwalk)%locate_Some Hsome.
  unfold kernel.mkdir. rewrite Hp.
  destruct (strip_trailing_spec (kernel.components p)) as (k & Hk & _).
  destruct (reverse (kernel.strip_trailing (kernel.components p)))
    as [|name rparents] eqn:Hrev; [done|].
  apply (f_equal reverse) in Hrev.
  rewrite reverse_involutive, reverse_cons in Hrev.
  rewrite Hk, Hrev, <-(assoc_L (++)), walk_app in Hwalk.
  destruct (kernel.walk _ _ (reverse rparents)) as [e|parent]; [done|].
  change ([name] ++ replicate k "") with (name :: replicate k "") in Hwalk.
  pose proof Hwalk as [Hparent Hrest]%walk_cons_inv.
  unfold kernel.create.
  destruct (nodes fs !! parent) as [[|w]|]; try done.
  case_decide as Hdots; [done|].
  assert (kernel.step parent name = name :: parent) as Hstep.
  { unfold kernel.step. destruct (decide (name = "" ∨ name = ".")) as [[-> | ->]|].
    - destruct (strip_trailing_spec (kernel.components p)) as (? & _ & Hlast).
      by destruct (Hlast _ _ Hrev).
    - tauto.
    - rewrite decide_False by tauto. done. }
  rewrite Hstep in Hrest.
  assert (l = name :: parent) as ->.
  { eapply walk_all_empty; [|done]. by apply Forall_replicate. }
  by rewrite decide_True.
Qed.

(** [makedirs] on a path that names a regular file raises
    [FileExistsError] and changes nothing. *)
Lemma makedirs_depth_file (n : nat) (name : string) (fs : filesystem) :
  genericpath.exists_ name fs = true → genericpath.isdir name fs = false →
  os.makedirs_depth (S n) name true fs = Raised FileExistsError fs.
Proof.
  intros Hexists Hdir.
  destruct (posixpath.split name) as [h1 t1] eqn:H1.
  destruct (if negb (PyStr.truthy t1) then posixpath.split h1 else (h1, t1))
    as [head tail] eqn:H2.
  rewrite (makedirs_depth_S _ _ _ _ _ _ _ _ H1 H2).
  pose proof Hexists as (l & Hl & Hsome)%exists_locate.
  assert (PyStr.truthy head && PyStr.truthy tail
          && negb (genericpath.exists_ head fs) = false) as ->.
  { destruct (PyStr.truthy head) eqn:Hhead; [|done].
    destruct (PyStr.truthy tail); [|done]. simpl.
    apply negb_false_iff, isdir_exists.
    destruct (head_tail_spec _ _ _ _ _ H1 H2) as (_ & k & j & Hname & _ & Hk).
    apply truthy_true in Hhead. eapply isdir_head; eauto. }
  rewrite makedirs_leaf_eq, (mkdir_exists _ _ _ Hl Hsome), Hdir.
  by apply locate_Some in Hl as (_ & -> & _).
Qed.

(** A name with a NUL in it makes [makedirs] raise, whatever the file
    system. *)
Lemma makedirs_depth_NUL (n : nat) (name : string) (ok : bool)
    (fs : filesystem) :
  PyStr.contains name NUL = true →
  ∃ e fs', os.makedirs_depth n name ok fs = Raised e fs'
           ∧ e ≠ FileExistsError.
Proof.
  revert name fs. induction n as [|n IH]; intros name fs Hnul.
  { by exists RecursionError, fs. }
  assert (∀ fs0, ∃ e fs', os.makedirs_leaf name ok fs0 = Raised e fs'
                          ∧ e ≠ FileExistsError) as Hleaf.
  { intros fs0. exists ValueError, fs0. by rewrite makedirs_leaf_eq, Hnul. }
  destruct (posixpath.split name) as [h1 t1] eqn:H1.
  destruct (if negb (PyStr.truthy t1) then posixpath.split h1 else (h1, t1))
    as [head tail] eqn:H2.
  rewrite (makedirs_depth_S _ _ _ _ _ _ _ _ H1 H2).
  destruct (_ && negb _); [|by apply Hleaf].
  destruct (String.eqb_spec tail ".") as [->|Htail].
  - assert (PyStr.contains head NUL = true) as Hhead.
    { destruct (head_tail_spec _ _ _ _ _ H1 H2) as (_ & k & j & Hname & _).
      rewrite Hname, !contains_app, !contains_repeat in Hnul by done.
      simpl in Hnul. by rewrite !orb_false_r in Hnul. }
    destruct (IH head fs Hhead) as (e & fs1 & -> & He).
    rewrite bool_decide_false by done. by exists e, fs1.
  - destruct (os.makedirs_depth n head ok fs) as [[] fs1|e fs1];
      [by apply Hleaf|].
    case_bool_decide as He; [by apply Hleaf|]. by exists e, fs1.
Qed.

Lemma makedirs_x_y_z :
  os.makedirs "x/../y//./z/" true fresh_fs = Returned () x_y_z_fs.
Proof. vm_compute. reflexivity. Qed.

Lemma split_x_y_z :
  posixpath.split "x/../y//./z/" = ("x/../y//./z", "")
  ∧ (if negb (PyStr.truthy "") then posixpath.split "x/../y//./z"
     else ("x/../y//./z", "")) = ("x/../y//.", "z").
Proof. split; vm_compute; reflexivity. Qed.

End MoreModuleFacts.

(** * Where the module can reach *)

Section ContainmentFacts.

Lemma components_working_dir (s t : string) :
  PyStr.contains t posixpath.sep = false →
  kernel.components (working_dir s +:+ t)
    = "reddit_data" :: kernel.components s ++ [t].
Proof.
  intros Ht.
  assert (working_dir s +:+ t
          = "reddit_data" +:+ String posixpath.sep
              (s +:+ String posixpath.sep t)) as ->.
  { unfold working_dir. by rewrite !str_app_assoc. }
  unfold kernel.components. rewrite split_app_sep, split_app_sep.
  by rewrite (split_no_sep t).
Qed.

(** Without [".."] the components only descend. *)
Lemma foldl_step_suffix (cur : list string) (cs : list string) :
  ".." ∉ cs → cur `suffix_of` foldl kernel.step cur cs.
Proof.
  revert cur. induction cs as [|c cs IH]; intros cur Hcs; [done|].
  apply not_elem_of_cons in Hcs as [Hc Hcs]. simpl.
  etrans; [|by apply IH]. unfold kernel.step.
  case_decide; [done|]. rewrite decide_False by done.
  by apply suffix_cons_r.
Qed.

Lemma on_path_contained (s dir : string) (fs : filesystem)
    (loc : list string) :
  ".." ∉ kernel.components s → dir ∈ directories s → on_path dir fs loc →
  ("reddit_data" :: cwd fs) `suffix_of` loc ∨ loc = "ouput" :: cwd fs.
Proof.
  intros Hs Hdir (cs & Hne & [rest Hpre] & Hwalk).
  apply walk_result in Hwalk as ->.
  assert (∀ t, PyStr.contains t posixpath.sep = false → t ≠ ".." →
            kernel.components (working_dir s +:+ t) = cs ++ rest →
            ("reddit_data" :: cwd fs)
              `suffix_of` foldl kernel.step (cwd fs) cs) as Hunder.
  { intros t Ht Hdots Hcs. rewrite components_working_dir in Hcs by done.
    destruct cs as [|c cs]; [done|]. injection Hcs as <- Hcs. simpl.
    rewrite (step_plain _ "reddit_data") by done.
    apply foldl_step_suffix. intros Hin.
    assert (".." ∈ kernel.components s ++ [t]) as Hin'.
    { rewrite Hcs. apply elem_of_app. by left. }
    apply elem_of_app in Hin' as [?|Hin']; [done|].
    by apply list_elem_of_singleton in Hin'. }
  unfold directories in Hdir. rewrite !elem_of_cons, elem_of_nil in Hdir.
  destruct Hdir as [->|[->|[->|[->|[]]]]].
  - left. rewrite <-(str_app_nil_r (working_dir s)) in Hpre |- *.
    rewrite start_working_dir. by apply (Hunder "").
  - left. rewrite media_dir_eq in Hpre |- *.
    rewrite start_working_dir. by apply (Hunder "media").
  - right. change (kernel.components output_dir) with ["ouput"; ""] in Hpre.
    change (kernel.start fs output_dir) with (cwd fs).
    destruct cs as [|c1 [|c2 [|c3 cs]]]; simplify_eq/=;
      by rewrite (step_plain _ "ouput").
  - left. rewrite mosaic_dir_eq in Hpre |- *.
    rewrite start_working_dir. by apply (Hunder "mosaics").
Qed.

(** The node a directory of the loop names, for an ordinary identifier. *)
Lemma locate_under_working_dir (s t : string) (fs : filesystem)
    (loc : list string) :
  plain_segment s → PyStr.contains t posixpath.sep = false →
  locate (working_dir s +:+ t) fs = Some loc →
  loc = kernel.step (s :: "reddit_data" :: cwd fs) t.
Proof.
  intros (Hne & Hdot & Hdots & Hsep) Ht (_ & _ & Hwalk)%locate_Some.
  apply walk_result in Hwalk as ->.
  rewrite components_under_working_dir, start_working_dir by done.
  simpl. by rewrite (step_plain _ "reddit_data"), (step_plain _ s).
Qed.

End ContainmentFacts.

(** * Further properties of the module *)

(** X1. Whatever the identifier, the last component of each joined path is
    the component that was joined: [media], [mosaics], [media.json.gz],
    [image_features.csv.gz] and [knn.pkl]; and [file_animation] splits
    into the root and [doppler_mosaic.mp4]. *)
Theorem bound_paths_basename (s : string) :
  (posixpath.split (media_dir s)).2 = "media"
  ∧ (posixpath.split (mosaic_dir s)).2 = "mosaics"
  ∧ (posixpath.split (image_lookup_file s)).2 = "media.json.gz"
  ∧ (posixpath.split (logits_file s)).2 = "image_features.csv.gz"
  ∧ (posixpath.split (knn_file s)).2 = "knn.pkl"
  ∧ posixpath.split file_animation = ("/", "doppler_mosaic.mp4").
Proof. split_and!; [by apply split_join_snd..|reflexivity]. Qed.

(** X2. Whatever the identifier, the eight paths the module binds are
    eight different strings. *)
Theorem bound_paths_distinct (s : string) :
  NoDup (directories s ++ files s).
Proof.
  unfold directories, files.
  rewrite image_lookup_file_eq, logits_file_eq, knn_file_eq, media_dir_eq,
    mosaic_dir_eq.
  change file_animation with "/doppler_mosaic.mp4".
  change output_dir with "ouput/".
  rewrite <-(str_app_nil_r (working_dir s)) at 1.
  repeat (apply NoDup_cons; split;
    [rewrite ?elem_of_cons, elem_of_nil;
     intros H; repeat (destruct H as [H|H]);
     first [ done
           | by apply (inj (String.app (working_dir s))) in H
           | by apply (f_equal (String.get 0)) in H ]
    |]).
  apply NoDup_nil_2.
Qed.

(** X3. Two different identifiers give different working directories,
    and differ in every path that is joined to the working directory. *)
Theorem bound_paths_injective (s1 s2 : string) :
  s1 ≠ s2 →
  working_dir s1 ≠ working_dir s2
  ∧ media_dir s1 ≠ media_dir s2
  ∧ mosaic_dir s1 ≠ mosaic_dir s2
  ∧ image_lookup_file s1 ≠ image_lookup_file s2
  ∧ logits_file s1 ≠ logits_file s2
  ∧ knn_file s1 ≠ knn_file s2.
Proof.
  intros Hne.
  rewrite image_lookup_file_eq, logits_file_eq, knn_file_eq, media_dir_eq,
    mosaic_dir_eq, image_lookup_file_eq, logits_file_eq, knn_file_eq,
    media_dir_eq, mosaic_dir_eq.
  split_and!; intros H; apply Hne; [by apply working_dir_inj|..];
    by apply str_app_inj_r, working_dir_inj in H.
Qed.

Lemma bound_paths_injective_witness :
  "dankmemes" ≠ "a/b" ∧ media_dir "dankmemes" ≠ media_dir "a/b".
Proof.
  split; [discriminate|].
  apply (bound_paths_injective "dankmemes" "a/b"). discriminate.
Defined.

(** X4. The list of column names is empty exactly when the number of
    dimensions is zero or negative: no error is raised then. *)
Theorem cols_conv_feats_empty (d : Z) :
  cols_conv_feats d = [] ↔ d ≤ 0.
Proof.
  unfold cols_conv_feats, range. split.
  - intros H%(f_equal length). rewrite length_fmap, length_seqZ in H.
    simpl in H. lia.
  - intros Hd. by rewrite seqZ_nil.
Qed.

(** X5. With more dimensions the column names of fewer dimensions stay,
    in place, at the head of the list. *)
Theorem cols_conv_feats_prefix (d1 d2 : Z) :
  d1 ≤ d2 → cols_conv_feats d1 `prefix_of` cols_conv_feats d2.
Proof.
  intros Hle. unfold cols_conv_feats, range.
  destruct (decide (d1 ≤ 0)) as [Hneg|Hpos].
  { rewrite (seqZ_nil _ d1) by done. apply prefix_nil. }
  replace d2 with (d1 + (d2 - d1)) by lia.
  rewrite seqZ_app, fmap_app by lia. by apply prefix_app_r.
Qed.

Lemma cols_conv_feats_prefix_witness :
  2 ≤ 4 ∧ cols_conv_feats 2 `prefix_of` cols_conv_feats 4.
Proof. split; [lia|]. apply (cols_conv_feats_prefix 2 4). lia. Defined.

Lemma dankmemes_readonly_isdir (dir : string) :
  dir ∈ directories "dankmemes" →
  genericpath.isdir dir dankmemes_readonly_fs = true.
Proof.
  unfold directories. rewrite !elem_of_cons, elem_of_nil.
  intros [->|[->|[->|[->|[]]]]]; vm_compute; reflexivity.
Qed.

Lemma resolve_noop (s : string) (d : Z) (fs : filesystem) :
  (∀ dir, dir ∈ directories s → genericpath.isdir dir fs = true) →
  resolve s d fs = Returned (bindings s d) fs.
Proof.
  intros Hdirs. apply resolve_returned.
  split; [reflexivity|by apply directories_noop].
Qed.

(** X6. [resolve] returns and leaves the file system exactly as it was
    when, and only when, its four directories are directories already;
    whether they can be written to plays no part. *)
Theorem resolve_changes_nothing_iff (s : string) (d : Z) (fs : filesystem) :
  resolve s d fs = Returned (bindings s d) fs ↔
  ∀ dir, dir ∈ directories s → genericpath.isdir dir fs = true.
Proof.
  rewrite resolve_returned. split.
  - intros [_ Hloop]. by apply (directories_isdir s fs).
  - intros Hdirs. by apply resolve_returned, resolve_noop.
Qed.

Lemma resolve_changes_nothing_iff_witness :
  (∀ dir, dir ∈ directories "dankmemes" →
     genericpath.isdir dir dankmemes_readonly_fs = true)
  ∧ resolve "dankmemes" 2048 dankmemes_readonly_fs
    = Returned (bindings "dankmemes" 2048) dankmemes_readonly_fs.
Proof.
  split; [apply dankmemes_readonly_isdir|].
  apply (resolve_changes_nothing_iff "dankmemes" 2048 dankmemes_readonly_fs).
  apply dankmemes_readonly_isdir.
Defined.

(** X7. After [resolve] has returned for one identifier, a run for any
    other identifier, whether it returns or raises, keeps the
    directories of the first; and running the first again afterwards
    returns and changes nothing. *)
Theorem resolve_keeps_earlier_runs (s1 s2 : string) (d1 d2 : Z)
    (fs fs1 : filesystem) (c1 : Config.t) :
  resolve s1 d1 fs = Returned c1 fs1 →
  (∀ dir, dir ∈ directories s1 →
     genericpath.isdir dir (final_fs (resolve s2 d2 fs1)) = true)
  ∧ resolve s1 d1 (final_fs (resolve s2 d2 fs1))
    = Returned c1 (final_fs (resolve s2 d2 fs1)).
Proof.
  intros [-> Hloop]%resolve_returned.
  assert (∀ dir, dir ∈ directories s1 →
            genericpath.isdir dir (final_fs (resolve s2 d2 fs1)) = true)
    as Hdirs.
  { intros dir Hdir. rewrite resolve_final.
    eapply isdir_frame; [apply for_each_makedirs_frame|].
    by apply (directories_isdir s1 fs). }
  split; [done|]. by apply resolve_noop.
Qed.

Lemma resolve_keeps_earlier_runs_witness :
  resolve "dankmemes" 2048 fresh_fs
    = Returned (bindings "dankmemes" 2048) dankmemes_fs
  ∧ resolve "dankmemes" 2048 (final_fs (resolve "a/b" 4 dankmemes_fs))
    = Returned (bindings "dankmemes" 2048)
        (final_fs (resolve "a/b" 4 dankmemes_fs)).
Proof.
  split; [apply resolve_dankmemes|].
  apply (resolve_keeps_earlier_runs "dankmemes" "a/b" 2048 4 fresh_fs).
  apply resolve_dankmemes.
Defined.

(** X8. When no component of the identifier is [".."], every node that
    [resolve] adds, however it ends, is [reddit_data] in the working
    directory, a node below it, or [ouput] in the working directory. *)
Theorem resolve_stays_below (s : string) (d : Z) (fs : filesystem)
    (loc : list string) :
  ".." ∉ kernel.components s →
  nodes fs !! loc = None →
  is_Some (nodes (final_fs (resolve s d fs)) !! loc) →
  ("reddit_data" :: cwd fs) `suffix_of` loc ∨ loc = "ouput" :: cwd fs.
Proof.
  intros Hs Hnone Hsome. rewrite resolve_final in Hsome.
  pose proof (for_each_makedirs_frame (directories s) fs) as (Hcwd & _).
  destruct (for_each_makedirs_created _ _ _ Hnone Hsome)
    as (dir & Hdir & Hpath).
  rewrite <-Hcwd. by eapply on_path_contained.
Qed.

Lemma resolve_stays_below_witness :
  (".." ∉ kernel.components "dankmemes")
  ∧ (nodes fresh_fs !! ["dankmemes"; "reddit_data"; "meme"; "home"] = None)
  ∧ is_Some (nodes (final_fs (resolve "dankmemes" 2048 fresh_fs))
               !! ["dankmemes"; "reddit_data"; "meme"; "home"])
  ∧ (("reddit_data" :: cwd fresh_fs)
       `suffix_of` ["dankmemes"; "reddit_data"; "meme"; "home"]
     ∨ ["dankmemes"; "reddit_data"; "meme"; "home"]
       = "ouput" :: cwd fresh_fs).
Proof.
  assert (".." ∉ kernel.components "dankmemes") as Hs.
  { intros H%list_elem_of_singleton. discriminate H. }
  assert (is_Some (nodes (final_fs (resolve "dankmemes" 2048 fresh_fs))
                     !! ["dankmemes"; "reddit_data"; "meme"; "home"]))
    as Hsome.
  { rewrite resolve_dankmemes. by eexists. }
  split_and!; [exact Hs|reflexivity|exact Hsome|].
  apply (resolve_stays_below "dankmemes" 2048 fresh_fs);
    [exact Hs|reflexivity|exact Hsome].
Defined.

(** X9. When [os.makedirs(name, exist_ok=True)] returns, the working
    directory is the same, every node that was there is unchanged and
    every new node is a directory on the path of [name]; and [name] is a
    directory, unless its last component is [.], where [makedirs] returns
    without its last [mkdir]. *)
Theorem makedirs_returned_effect (name h1 t1 head tail : string)
    (fs fs' : filesystem) :
  posixpath.split name = (h1, t1) →
  (if negb (PyStr.truthy t1) then posixpath.split h1 else (h1, t1))
    = (head, tail) →
  os.makedirs name true fs = Returned () fs' →
  (tail ≠ posixpath.curdir → genericpath.isdir name fs' = true)
  ∧ cwd fs' = cwd fs
  ∧ (∀ loc i, nodes fs !! loc = Some i → nodes fs' !! loc = Some i)
  ∧ (∀ loc, nodes fs !! loc = None → is_Some (nodes fs' !! loc) →
       kernel.is_dir (nodes fs' !! loc) = true ∧ on_path name fs' loc).
Proof.
  intros H1 H2 Hret.
  destruct (makedirs_returned_frame name fs fs' Hret) as (Hcwd & Hold & Hnew).
  split_and!; [|done..|].
  - intros Htail. by eapply makedirs_depth_returned.
  - intros loc Hnone Hsome. split.
    + destruct Hsome as [i Hi]. by rewrite Hi, (Hnew loc i Hnone Hi).
    + pose proof (makedirs_depth_created (S (String.length name)) name true
                    fs loc Hnone) as Hcreated.
      fold (os.makedirs name true) in Hcreated. rewrite Hret in Hcreated.
      by apply Hcreated.
Qed.

Lemma makedirs_returned_effect_witness :
  posixpath.split "x/../y//./z/" = ("x/../y//./z", "")
  ∧ (if negb (PyStr.truthy "") then posixpath.split "x/../y//./z"
     else ("x/../y//./z", "")) = ("x/../y//.", "z")
  ∧ os.makedirs "x/../y//./z/" true fresh_fs = Returned () x_y_z_fs
  ∧ genericpath.isdir "x/../y//./z/" x_y_z_fs = true.
Proof.
  destruct split_x_y_z as [H1 H2].
  split_and!; [exact H1|exact H2|apply makedirs_x_y_z|].
  destruct (makedirs_returned_effect "x/../y//./z/" "x/../y//./z" ""
              "x/../y//." "z" fresh_fs x_y_z_fs H1 H2 makedirs_x_y_z)
    as (Hdir & _).
  apply Hdir. discriminate.
Defined.

(** X10. [resolve] never returns for an identifier with a NUL in it,
    whatever the file system: it raises. *)
Theorem resolve_rejects_NUL (s : string) (d : Z) (fs : filesystem) :
  PyStr.contains s NUL = true →
  ∃ e fs', resolve s d fs = Raised e fs'.
Proof.
  intros Hnul.
  destruct (makedirs_depth_NUL (S (String.length (working_dir s)))
              (working_dir s) true fs) as (e & fs' & Hraised & _).
  { unfold working_dir. by rewrite !contains_app, Hnul, orb_true_r. }
  exists e, fs'. apply resolve_raised.
  unfold directories. rewrite for_each_cons. unfold os.makedirs.
  by rewrite Hraised.
Qed.

Lemma resolve_rejects_NUL_witness :
  PyStr.contains (String NUL "memes") NUL = true
  ∧ ∃ e fs', resolve (String NUL "memes") 2048 fresh_fs = Raised e fs'.
Proof.
  split; [reflexivity|].
  apply (resolve_rejects_NUL (String NUL "memes") 2048 fresh_fs).
  reflexivity.
Defined.

(** X11. [resolve] never returns when one of its four directory paths
    names a regular file: it raises, and the file stays a file. *)
Theorem resolve_not_over_file (s dir : string) (d : Z) (fs : filesystem) :
  dir ∈ directories s →
  genericpath.exists_ dir fs = true → genericpath.isdir dir fs = false →
  ∃ e fs', resolve s d fs = Raised e fs'
           ∧ genericpath.exists_ dir fs' = true
           ∧ genericpath.isdir dir fs' = false.
Proof.
  intros Hdir (l & Hl & [i Hi])%exists_locate Hfile.
  pose proof (for_each_makedirs_frame (directories s) fs)
    as Hframe.
  rewrite <-(resolve_final s d) in Hframe.
  set (fs' := final_fs (resolve s d fs)) in *.
  assert (i = File) as ->.
  { destruct i as [|w]; [done|].
    assert (genericpath.isdir dir fs = true); [|congruence].
    apply isdir_locate. exists l. by rewrite Hi. }
  assert (locate dir fs' = Some l) as Hl'.
  { eapply locate_mono; [apply Hframe| |done].
    by apply only_new_directories_subseteq. }
  assert (nodes fs' !! l = Some File) as Hi' by by apply Hframe.
  assert (genericpath.isdir dir fs' = false) as Hfile'.
  { apply not_true_is_false. intros (l' & Hl'' & Hd)%isdir_locate.
    rewrite Hl' in Hl''. injection Hl'' as <-. by rewrite Hi' in Hd. }
  subst fs'. destruct (resolve s d fs) as [c fs'|e fs'] eqn:Hres.
  - apply resolve_returned in Hres as [_ Hloop].
    apply (directories_isdir s fs fs' Hloop) in Hdir. simpl in Hfile'.
    congruence.
  - exists e, fs'. split_and!; [done| |done].
    apply exists_locate. exists l. split; [done|by eexists].
Qed.

Lemma media_file_exists :
  genericpath.exists_ (media_dir "dankmemes") media_file_fs = true
  ∧ genericpath.isdir (media_dir "dankmemes") media_file_fs = false.
Proof. split; vm_compute; reflexivity. Qed.

Lemma resolve_not_over_file_witness :
  media_dir "dankmemes" ∈ directories "dankmemes"
  ∧ genericpath.exists_ (media_dir "dankmemes") media_file_fs = true
  ∧ genericpath.isdir (media_dir "dankmemes") media_file_fs = false
  ∧ ∃ e fs', resolve "dankmemes" 2048 media_file_fs = Raised e fs'
             ∧ genericpath.exists_ (media_dir "dankmemes") fs' = true
             ∧ genericpath.isdir (media_dir "dankmemes") fs' = false.
Proof.
  assert (media_dir "dankmemes" ∈ directories "dankmemes") as Hin.
  { unfold directories. right. left. }
  split_and!; [exact Hin|apply media_file_exists..|].
  apply (resolve_not_over_file "dankmemes" (media_dir "dankmemes") 2048
           media_file_fs); [exact Hin|apply media_file_exists..].
Defined.

(** X12. [os.makedirs(name, exist_ok=True)] on a name that exists and is
    not a directory raises [FileExistsError] and changes nothing:
    [exist_ok] forgives directories only. *)
Theorem makedirs_on_file (name : string) (fs : filesystem) :
  genericpath.exists_ name fs = true → genericpath.isdir name fs = false →
  os.makedirs name true fs = Raised FileExistsError fs.
Proof. intros Hexists Hfile. by apply makedirs_depth_file. Qed.

Lemma makedirs_on_file_witness :
  genericpath.exists_ (media_dir "dankmemes") media_file_fs = true
  ∧ genericpath.isdir (media_dir "dankmemes") media_file_fs = false
  ∧ os.makedirs (media_dir "dankmemes") true media_file_fs
    = Raised FileExistsError media_file_fs.
Proof.
  split_and!; [apply media_file_exists..|].
  apply (makedirs_on_file (media_dir "dankmemes") media_file_fs);
    apply media_file_exists.
Defined.

Lemma dankmemes_plain : plain_segment "dankmemes".
Proof. by split_and!. Qed.

(** X13. When [resolve] returns for an identifier [s] that is one ordinary
    path segment, the file system it leaves is the one it found with
    these five nodes directories: [reddit_data], [reddit_data/s],
    [reddit_data/s/media], [reddit_data/s/mosaics] and [ouput], all in
    the working directory; every node that was there and every other
    location is as it was. *)
Theorem resolve_plain_footprint (s : string) (d : Z) (fs fs' : filesystem)
    (c : Config.t) :
  plain_segment s →
  resolve s d fs = Returned c fs' →
  cwd fs' = cwd fs
  ∧ (∀ loc, loc ∈ [ "reddit_data" :: cwd fs;
                    s :: "reddit_data" :: cwd fs;
                    "media" :: s :: "reddit_data" :: cwd fs;
                    "mosaics" :: s :: "reddit_data" :: cwd fs;
                    "ouput" :: cwd fs ] →
       kernel.is_dir (nodes fs' !! loc) = true)
  ∧ (∀ loc i, nodes fs !! loc = Some i → nodes fs' !! loc = Some i)
  ∧ (∀ loc, loc ∉ [ "reddit_data" :: cwd fs;
                    s :: "reddit_data" :: cwd fs;
                    "media" :: s :: "reddit_data" :: cwd fs;
                    "mosaics" :: s :: "reddit_data" :: cwd fs;
                    "ouput" :: cwd fs ] →
       nodes fs' !! loc = nodes fs !! loc).
Proof.
  intros Hplain [-> Hret]%resolve_returned.
  pose proof (for_each_makedirs_frame (directories s) fs) as Hframe.
  pose proof (for_each_makedirs_created (directories s) fs) as Hcreated.
  rewrite Hret in Hframe, Hcreated. simpl in Hframe, Hcreated.
  destruct Hframe as (Hcwd & Hold & _). split; [done|].
  pose proof (directories_isdir s fs fs' Hret) as Hdirs.
  pose proof Hplain as (Hne & Hdot & Hdots & Hsep).
  assert (∀ t, PyStr.contains t posixpath.sep = false →
            t ≠ "" → t ≠ "." → t ≠ ".." →
            working_dir s +:+ t ∈ directories s →
            kernel.is_dir (nodes fs' !! ("reddit_data" :: cwd fs)) = true
            ∧ kernel.is_dir (nodes fs' !! (s :: "reddit_data" :: cwd fs))
              = true
            ∧ kernel.is_dir
                (nodes fs' !! (t :: s :: "reddit_data" :: cwd fs)) = true)
    as Hunder.
  { intros t Ht Htne Htdot Htdots Hin.
    apply Hdirs, isdir_locate in Hin as (l & Hl & Hd).
    pose proof Hl as Hloc%locate_under_working_dir; [|done..].
    rewrite step_plain, Hcwd in Hloc by done. subst l.
    apply locate_Some in Hl as (_ & _ & Hwalk).
    rewrite components_under_working_dir, start_working_dir in Hwalk
      by done.
    apply walk_cons_inv in Hwalk as [_ Hwalk].
    rewrite (step_plain _ "reddit_data"), Hcwd in Hwalk by done.
    pose proof Hwalk as [Hrd Hwalk']%walk_cons_inv.
    rewrite (step_plain _ s) in Hwalk' by done.
    by apply walk_cons_inv in Hwalk' as [? _]. }
  destruct (Hunder "media") as (Hrd & Hs & Hmedia); [done..| |].
  { rewrite <-media_dir_eq. unfold directories. right. left. }
  destruct (Hunder "mosaics") as (_ & _ & Hmosaics); [done..| |].
  { rewrite <-mosaic_dir_eq. unfold directories. do 3 right. left. }
  assert (kernel.is_dir (nodes fs' !! ("ouput" :: cwd fs)) = true) as Houput.
  { assert (output_dir ∈ directories s) as Hin.
    { unfold directories. do 2 right. left. }
    apply Hdirs, isdir_locate in Hin as (l & (_ & _ & Hl)%locate_Some & Hd).
    apply walk_result in Hl. simpl in Hl.
    change (kernel.start fs' output_dir) with (cwd fs') in Hl.
    rewrite (step_plain _ "ouput"), Hcwd in Hl by done. subst l.
    by rewrite step_empty in Hd. }
  split_and!.
  - intros loc Hloc. rewrite !elem_of_cons, elem_of_nil in Hloc.
    by destruct Hloc as [->|[->|[->|[->|[->|[]]]]]].
  - exact Hold.
  - intros loc Hloc.
    destruct (nodes fs !! loc) as [i|] eqn:Hi; [by apply Hold|].
    destruct (nodes fs' !! loc) as [i'|] eqn:Hi'; [|done].
    destruct (Hcreated loc Hi) as (dir & Hdir & Hpath); [by eexists|].
    apply (on_path_directories s dir fs' loc Hplain Hdir) in Hpath.
    by rewrite Hcwd in Hpath.
Qed.

Lemma resolve_plain_footprint_witness :
  plain_segment "dankmemes"
  ∧ resolve "dankmemes" 2048 fresh_fs
    = Returned (bindings "dankmemes" 2048) dankmemes_fs
  ∧ cwd dankmemes_fs = cwd fresh_fs
  ∧ nodes dankmemes_fs !! ["x"; "meme"; "home"]
    = nodes fresh_fs !! ["x"; "meme"; "home"].
Proof.
  split; [apply dankmemes_plain|]. split; [apply resolve_dankmemes|].
  destruct (resolve_plain_footprint "dankmemes" 2048 fresh_fs dankmemes_fs
              (bindings "dankmemes" 2048))
    as (Hcwd & _ & _ & Hrest);
    [apply dankmemes_plain|apply resolve_dankmemes|].
  split; [exact Hcwd|]. apply Hrest.
  rewrite !elem_of_cons, elem_of_nil.
  intros [H|[H|[H|[H|[H|[]]]]]]; discriminate H.
Defined.
